(** * bbb-player: the download-and-materialize pipeline

    A shallow embedding of [bbb-player.py]: the session-url resolver, the
    directory provisioner, the fixed-manifest fetcher ([downloadFiles]), the
    metadata-driven expander ([downloadSlides]), the completion marker (the
    tail of [downloadScript]), the session lister ([hello]), the start of
    the web application ([create_app]) and the handler of the download form
    ([api_dl_meeting]).

    Python is embedded as follows.
    - Strings are [string]; one [ascii] stands for one character.
    - Exceptions are the inductive [exn]; a computation is a function from the
      program state to an outcome ([Ret] or [Raise]) and the new state, so
      side effects made before a raise persist.
    - The state is the local file system (a finite map from path to node)
      and the chronological trace of observable events: logger calls and
      requests handed to a download backend.
    - The world (installed optional packages, the script directory, the remote
      server, [urlparse]) is a read-only record.  A transfer ends in success,
      in an HTTP error or in another error of class [Exception]; killing the
      process from outside is not part of the model. *)

From Stdlib Require Import String Ascii ZArith List Lia Bool Sorted Permutation.
From stdpp Require Import base gmap strings list pretty.

Open Scope string_scope.
Set Warnings "-register-all".

(** ** Python prelude *)

Module Py.

(** The exception classes the program can meet. *)
Inductive exn : Type :=
| HTTPError (code : Z)            (* urllib.error.HTTPError *)
| URLError (reason : string)      (* any other transport failure *)
| NameError (name : string)
| FileNotFoundError (path : string)
| FileExistsError (path : string)
| NotADirectoryError (path : string)
| IsADirectoryError (path : string)
| JSONDecodeError
| TypeError (msg : string)
| IndexError (msg : string)
| KeyError (key : string)
| DistutilsFileError (msg : string)
| SystemExit (code : Z).

(** [isinstance(e, Exception)]: everything but [SystemExit]. *)
Definition is_Exception (e : exn) : bool :=
  match e with
  | SystemExit _ => false
  | _ => true
  end.

(** [isinstance(e, OSError)]; [URLError] and [HTTPError] derive from it. *)
Definition is_OSError (e : exn) : bool :=
  match e with
  | HTTPError _ | URLError _ | FileNotFoundError _ | FileExistsError _
  | NotADirectoryError _ | IsADirectoryError _ => true
  | _ => false
  end.

Inductive outcome (A : Type) : Type :=
| Ret (a : A)
| Raise (e : exn).
Arguments Ret {A} a.
Arguments Raise {A} e.


(** [str(n)] for a non-negative integer. *)
Definition str (n : nat) : string := pretty n.

(** [s.startswith('/')] and [s.endswith('/')]. *)
Definition startswith_sep (s : string) : bool :=
  match s with
  | String c _ => Ascii.eqb c "/"
  | EmptyString => false
  end.

Fixpoint endswith_sep (s : string) : bool :=
  match s with
  | EmptyString => false
  | String c EmptyString => Ascii.eqb c "/"
  | String _ s' => endswith_sep s'
  end.

(** One step of [posixpath.join]: a component that starts with the
    separator replaces what was joined so far. *)
Definition join2 (path b : string) : string :=
  if startswith_sep b then b
  else if (String.eqb path "" || endswith_sep path)%bool then path +:+ b
  else path +:+ "/" +:+ b.

(** [os.path.join(a, *p)]. *)
Definition os_path_join (a : string) (p : list string) : string :=
  fold_left join2 p a.

(** Truth value of an optional string argument ([None] and [''] are false). *)
Definition truthy (s : option string) : bool :=
  match s with
  | Some (String _ _) => true
  | _ => false
  end.

(** [enumerate(l)], counting from [i]. *)
Fixpoint enumerate_from {A} (i : nat) (l : list A) : list (nat * A) :=
  match l with
  | [] => []
  | x :: l' => (i, x) :: enumerate_from (S i) l'
  end.

Definition enumerate {A} (l : list A) : list (nat * A) := enumerate_from 0 l.

(** [sorted(l)] on strings: insertion into an ordered list, by code point. *)
Fixpoint insert_sorted (x : string) (l : list string) : list string :=
  match l with
  | [] => [x]
  | y :: l' => if String.leb x y then x :: y :: l' else y :: insert_sorted x l'
  end.

Definition sorted (l : list string) : list string :=
  fold_right insert_sorted [] l.

(** The order [sorted] sorts by. *)
Definition leb_str (a b : string) : Prop := String.leb a b = true.

End Py.
Export Py.

(** ** Regular expressions

    The fragment of [re] the program uses: a sequence of single-character
    classes under a counted quantifier (greedy or lazy) and group brackets,
    matched by backtracking with Python's priorities. *)

Module Re.

Inductive item : Type :=
| Rep (p : ascii -> bool) (lo : nat) (hi : option nat) (greedy : bool)
| Open (g : nat)
| Close (g : nat).

(** Group bookkeeping: where the open groups started, and the spans of the
    closed ones (most recent first). *)
Record caps : Type := {
  opened : list (nat * nat);
  spans : list (nat * (nat * nat))
}.

Definition no_caps : caps := {| opened := []; spans := [] |}.

Fixpoint assoc {B} (g : nat) (l : list (nat * B)) : option B :=
  match l with
  | [] => None
  | (k, v) :: l' => if Nat.eqb k g then Some v else assoc g l'
  end.

Definition open_group (g pos : nat) (c : caps) : caps :=
  {| opened := (g, pos) :: opened c; spans := spans c |}.

Definition close_group (g pos : nat) (c : caps) : caps :=
  match assoc g (opened c) with
  | Some b => {| opened := opened c; spans := (g, (b, pos)) :: spans c |}
  | None => c
  end.

Definition below (n : nat) (hi : option nat) : bool :=
  match hi with
  | Some h => Nat.ltb n h
  | None => true
  end.

(** A counted quantifier over the class [p], with [n] characters taken so
    far and [k] the match of what follows it in the pattern.  A greedy
    quantifier tries one more character before it tries [k], a lazy one the
    other way round. *)
Fixpoint rep {R} (p : ascii -> bool) (lo : nat) (hi : option nat) (greedy : bool)
  (k : list ascii -> nat -> option R) (n : nat) (s : list ascii) (pos : nat)
  {struct s} : option R :=
  let more :=
    match s with
    | ch :: s' =>
        if (p ch && below n hi)%bool then rep p lo hi greedy k (S n) s' (S pos)
        else None
    | [] => None
    end in
  if greedy then
    match more with
    | Some r => Some r
    | None => if Nat.leb lo n then k s pos else None
    end
  else
    match (if Nat.leb lo n then k s pos else None) with
    | Some r => Some r
    | None => more
    end.

(** Match [items] at the head of [s], which starts at offset [pos] of the
    subject. *)
Fixpoint match_here (items : list item) (s : list ascii) (pos : nat) (c : caps)
  : option (nat * caps) :=
  match items with
  | [] => Some (pos, c)
  | Open g :: rest => match_here rest s pos (open_group g pos c)
  | Close g :: rest => match_here rest s pos (close_group g pos c)
  | Rep p lo hi greedy :: rest =>
      rep p lo hi greedy (fun s' pos' => match_here rest s' pos' c) 0 s pos
  end.

(** [re.search]: the first offset, from the left, at which the pattern
    matches. *)
Fixpoint search_from (items : list item) (s : list ascii) (pos : nat)
  : option (nat * nat * caps) :=
  match match_here items s pos no_caps with
  | Some (e, c) => Some (pos, e, c)
  | None =>
      match s with
      | [] => None
      | _ :: s' => search_from items s' (S pos)
      end
  end.

(** A match object. *)
Record match_object : Type := {
  subject : list ascii;
  span : nat * nat;
  group_spans : list (nat * (nat * nat))
}.

Definition search (items : list item) (text : string) : option match_object :=
  match search_from items (list_ascii_of_string text) 0 with
  | Some (b, e, c) =>
      Some {| subject := list_ascii_of_string text;
              span := (b, e);
              group_spans := spans c |}
  | None => None
  end.

Definition slice (b e : nat) (l : list ascii) : list ascii :=
  firstn (e - b) (skipn b l).

(** [m.group(g)]; [None] for a group that took no part in the match. *)
Definition group (m : match_object) (g : nat) : option string :=
  match assoc g (group_spans m) with
  | Some (b, e) => Some (string_of_list_ascii (slice b e (subject m)))
  | None => None
  end.

(** [m.groups()], for a pattern with [n] groups. *)
Definition groups (n : nat) (m : match_object) : list (option string) :=
  map (group m) (seq 1 n).

(** Character classes, as they match under [re.IGNORECASE]. *)
Definition is_digit (c : ascii) : bool :=
  let n := nat_of_ascii c in (Nat.leb 48 n && Nat.leb n 57)%bool.

Definition is_hex (c : ascii) : bool :=
  let n := nat_of_ascii c in
  ((Nat.leb 48 n && Nat.leb n 57) || (Nat.leb 97 n && Nat.leb n 102)
   || (Nat.leb 65 n && Nat.leb n 70))%bool.

Definition is_char (x : ascii) (c : ascii) : bool := Ascii.eqb c x.

(** [.] without [re.DOTALL]: anything but a newline. *)
Definition is_dot (c : ascii) : bool := negb (Ascii.eqb c "010").

Definition one (p : ascii -> bool) : item := Rep p 1 (Some 1) true.
Definition opt (p : ascii -> bool) : item := Rep p 0 (Some 1) true.
Definition plus (p : ascii -> bool) : item := Rep p 1 None true.
Definition lazy_star (p : ascii -> bool) : item := Rep p 0 None false.
Definition exactly (n : nat) (p : ascii -> bool) : item := Rep p n (Some n) true.

End Re.

(** The pattern of [downloadScript]:
    [/?(\d+\.\d+)/.*?([0-9a-f]{40}-\d{13})/?] with [re.IGNORECASE]. *)
Definition meeting_id_items : list Re.item :=
  [ Re.Open 2;
    Re.exactly 40 Re.is_hex; Re.one (Re.is_char "-"); Re.exactly 13 Re.is_digit;
    Re.Close 2;
    Re.opt (Re.is_char "/") ].

Definition session_re : list Re.item :=
  [ Re.opt (Re.is_char "/");
    Re.Open 1;
    Re.plus Re.is_digit; Re.one (Re.is_char "."); Re.plus Re.is_digit;
    Re.Close 1;
    Re.one (Re.is_char "/");
    Re.lazy_star Re.is_dot ] ++ meeting_id_items.

Definition session_re_groups : nat := 2.

(** The shape of a session id: 40 hexadecimal digits, a hyphen, 13 decimal
    digits. *)
Definition is_meeting_id (l : list ascii) : Prop :=
  exists h d, l = (h ++ "-"%char :: d)%list /\
    length h = 40%nat /\ Forall (fun x => Re.is_hex x = true) h /\
    length d = 13%nat /\ Forall (fun x => Re.is_digit x = true) d.


(** ** JSON documents and the Python values they load to *)

Module Value.

(** The parse tree of a JSON text. *)
Inductive json : Type :=
| JNull
| JBool (b : bool)
| JInt (z : Z)
| JFloat (lexeme : string)
| JString (s : string)
| JArray (l : list json)
| JObject (members : list (string * json)).

Inductive pyval : Type :=
| PNone
| PBool (b : bool)
| PInt (z : Z)
| PFloat (lexeme : string)
| PStr (s : string)
| PList (l : list pyval)
| PDict (items : list (string * pyval)).

(** [d[k] = v] on a dict kept in insertion order. *)
Fixpoint dict_set (k : string) (v : pyval) (items : list (string * pyval))
  : list (string * pyval) :=
  match items with
  | [] => [(k, v)]
  | (k', v') :: rest =>
      if String.eqb k' k then (k', v) :: rest else (k', v') :: dict_set k v rest
  end.

Fixpoint dict_get (k : string) (items : list (string * pyval)) : option pyval :=
  match items with
  | [] => None
  | (k', v') :: rest => if String.eqb k' k then Some v' else dict_get k rest
  end.

Definition dict_keys (items : list (string * pyval)) : list string :=
  map fst items.

(** [json.load]: an object becomes a dict, members inserted left to right
    (a repeated key keeps its first place and its last value). *)
Fixpoint json_load (j : json) : pyval :=
  match j with
  | JNull => PNone
  | JBool b => PBool b
  | JInt z => PInt z
  | JFloat x => PFloat x
  | JString s => PStr s
  | JArray l => PList (map json_load l)
  | JObject members =>
      PDict (fold_left (fun d kv => dict_set (fst kv) (json_load (snd kv)) d)
                       members [])
  end.

(** [len(v)]. *)
Definition py_len (v : pyval) : outcome nat :=
  match v with
  | PStr s => Ret (String.length s)
  | PList l => Ret (length l)
  | PDict d => Ret (length d)
  | _ => Raise (TypeError "object has no len()")
  end.

(** The items [for x in v] goes through. *)
Definition py_iter (v : pyval) : outcome (list pyval) :=
  match v with
  | PStr s => Ret (map (fun c => PStr (String c "")) (list_ascii_of_string s))
  | PList l => Ret l
  | PDict d => Ret (map PStr (dict_keys d))
  | _ => Raise (TypeError "object is not iterable")
  end.

(** A sequence index: negative indices count from the end. *)
Definition seq_index {A} (l : list A) (i : Z) : option A :=
  let n := Z.of_nat (length l) in
  if (0 <=? i)%Z then l !! Z.to_nat i
  else if (0 <=? i + n)%Z then l !! Z.to_nat (i + n)
  else None.

Definition as_index (key : pyval) : option Z :=
  match key with
  | PInt i => Some i
  | PBool b => Some (if b then 1%Z else 0%Z)
  | _ => None
  end.

(** [data[key]]. *)
Definition py_getitem (data key : pyval) : outcome pyval :=
  match data with
  | PDict d =>
      match key with
      | PStr k =>
          match dict_get k d with
          | Some v => Ret v
          | None => Raise (KeyError k)
          end
      | PList _ | PDict _ => Raise (TypeError "unhashable type")
      | _ => Raise (KeyError "")
      end
  | PList l =>
      match as_index key with
      | Some i =>
          match seq_index l i with
          | Some v => Ret v
          | None => Raise (IndexError "list index out of range")
          end
      | None => Raise (TypeError "list indices must be integers or slices")
      end
  | PStr s =>
      match as_index key with
      | Some i =>
          match seq_index (list_ascii_of_string s) i with
          | Some c => Ret (PStr (String c ""))
          | None => Raise (IndexError "string index out of range")
          end
      | None => Raise (TypeError "string indices must be integers")
      end
  | _ => Raise (TypeError "object is not subscriptable")
  end.

(** A value used as a path component or in string concatenation. *)
Definition as_str (v : pyval) : outcome string :=
  match v with
  | PStr s => Ret s
  | _ => Raise (TypeError "expected str")
  end.

(** [str(v)] as a log message shows it; containers are abridged. *)
Definition py_str (v : pyval) : string :=
  match v with
  | PNone => "None"
  | PBool true => "True"
  | PBool false => "False"
  | PInt z => pretty z
  | PFloat x => x
  | PStr s => s
  | PList _ => "[...]"
  | PDict _ => "{...}"
  end.

End Value.
Export Value.

(** ** The local file system *)

Module FS.

(** What a file holds: a JSON text, given by its parse tree, or bytes that
    are no JSON text. *)
Inductive content : Type :=
| Document (j : json)
| Bytes (b : string).

Inductive node : Type :=
| File (c : content)
| Dir.

Abbreviation filesystem := (gmap string node).

Definition isfile (fs : filesystem) (path : string) : bool :=
  match fs !! path with
  | Some (File _) => true
  | _ => false
  end.

Definition isdir (fs : filesystem) (path : string) : bool :=
  match fs !! path with
  | Some Dir => true
  | _ => false
  end.

(** A path without its trailing separators. *)
Fixpoint rstrip_sep (s : string) : string :=
  match s with
  | EmptyString => EmptyString
  | String c s' =>
      match rstrip_sep s' with
      | EmptyString => if Ascii.eqb c "/" then EmptyString else String c EmptyString
      | r => String c r
      end
  end.

(** The directories above a path, outermost first: its non-empty prefixes
    that stop before a separator. *)
Fixpoint ancestors_from (seen : string) (s : string) : list string :=
  match s with
  | EmptyString => []
  | String c s' =>
      (if (Ascii.eqb c "/" && negb (String.eqb seen ""))%bool then [seen] else [])
        ++ ancestors_from (seen +:+ String c EmptyString) s'
  end.

Definition ancestors (path : string) : list string := ancestors_from "" path.

Definition parent (path : string) : option string := last (ancestors path).

(** [os.makedirs(path)]: fails when the path exists or when a directory
    above it is a regular file; otherwise creates the path and every
    missing directory above it. *)
Definition makedirs (fs : filesystem) (path : string) : outcome filesystem :=
  let p := rstrip_sep path in
  match fs !! p with
  | Some _ => Raise (FileExistsError path)
  | None =>
      if existsb (isfile fs) (ancestors p) then Raise (NotADirectoryError path)
      else Ret (foldr (fun a m => <[a := Dir]> m) fs (ancestors p ++ [p]))
  end.

(** A file can be created or truncated where no directory is in the way
    and the directory above exists. *)
Definition writable (fs : filesystem) (path : string) : bool :=
  (negb (isdir fs path)
   && match parent path with
      | Some d => isdir fs d
      | None => true
      end)%bool.

Definition write_file (fs : filesystem) (path : string) (c : content)
  : outcome filesystem :=
  if isdir fs path then Raise (IsADirectoryError path)
  else if writable fs path then Ret (<[path := File c]> fs)
  else Raise (FileNotFoundError path).

(** [open(path)] for reading. *)
Definition read_file (fs : filesystem) (path : string) : outcome content :=
  match fs !! path with
  | Some (File c) => Ret c
  | Some Dir => Raise (IsADirectoryError path)
  | None => Raise (FileNotFoundError path)
  end.

(** [s] without the prefix [p], when it has it. *)
Fixpoint strip_prefix (p s : string) : option string :=
  match p with
  | EmptyString => Some s
  | String a p' =>
      match s with
      | String b s' => if Ascii.eqb a b then strip_prefix p' s' else None
      | EmptyString => None
      end
  end.

Fixpoint has_sep (s : string) : bool :=
  match s with
  | EmptyString => false
  | String c s' => (Ascii.eqb c "/" || has_sep s')%bool
  end.

(** The name of [path] inside [d], when [path] is an entry of [d]. *)
Definition entry_name (d path : string) : option string :=
  match strip_prefix (d +:+ "/") path with
  | Some (String c n) => if has_sep (String c n) then None else Some (String c n)
  | _ => None
  end.

(** [os.listdir(d)], in the order the file system happens to give. *)
Definition listdir (fs : filesystem) (d : string) : outcome (list string) :=
  if isdir fs d then Ret (omap (entry_name d) (map fst (map_to_list fs)))
  else if isfile fs d then Raise (NotADirectoryError d)
  else Raise (FileNotFoundError d).

(** [distutils.dir_util.copy_tree(src, dst)]: every node below [src] is
    written to the same place below [dst]. *)
Definition copy_tree (fs : filesystem) (src dst : string) : outcome filesystem :=
  if negb (isdir fs src) then
    Raise (DistutilsFileError ("cannot copy tree '" +:+ src +:+ "': not a directory"))
  else if isfile fs dst then
    Raise (DistutilsFileError ("could not create '" +:+ dst +:+ "': File exists"))
  else
    Ret (foldr (fun kn m =>
                  match strip_prefix (src +:+ "/") (fst kn) with
                  | Some rest => <[dst +:+ "/" +:+ rest := snd kn]> m
                  | None => m
                  end)
               (<[dst := Dir]> fs) (map_to_list fs)).

End FS.
Export FS.

(** ** Program state, events and the exception-state monad *)

Module Run.

Inductive level : Type := DEBUG | INFO | WARNING | ERROR | CRITICAL.

Definition levelno (l : level) : nat :=
  match l with
  | DEBUG => 10 | INFO => 20 | WARNING => 30 | ERROR => 40 | CRITICAL => 50
  end.

Definition LOGGING_LEVEL : level := INFO.

Inductive backend : Type := SmartDL | Urlretrieve.

(** What a run shows to the outside, in the order it happens.
    [Try url path] marks the entry into the [try] block of a per-file
    fetch; [Request] is the call of a download backend. *)
Inductive event : Type :=
| Log (lvl : level) (msg : string)
| LogException (msg : string) (e : exn)
| Try (url path : string)
| Request (b : backend) (url path : string).

Record state : Type := {
  fs : gmap string node;
  trace : list event
}.

Definition M (A : Type) : Type := state -> outcome A * state.

#[export] Instance M_ret : MRet M := fun A a st => (Ret a, st).

#[export] Instance M_bind : MBind M := fun A B f m st =>
  match m st with
  | (Ret a, st') => f a st'
  | (Raise e, st') => (Raise e, st')
  end.

Definition raise {A} (e : exn) : M A := fun st => (Raise e, st).

Definition lift {A} (o : outcome A) : M A := fun st => (o, st).

Definition emit (ev : event) : M unit := fun st =>
  (Ret tt, {| fs := fs st; trace := trace st ++ [ev] |}).

(** The state after further events. *)
Definition add (st : state) (evs : list event) : state :=
  {| fs := fs st; trace := trace st ++ evs |}.

Definition get_fs : M (gmap string node) := fun st => (Ret (fs st), st).

(** A file-system operation: its effect is kept when it returns. *)
Definition fs_update (op : gmap string node -> outcome (gmap string node)) : M unit :=
  fun st =>
    match op (fs st) with
    | Ret fs' => (Ret tt, {| fs := fs'; trace := trace st |})
    | Raise e => (Raise e, st)
    end.

(** [try: body / except ...: handler / else: orelse].  [handler e] is [None]
    when no [except] clause matches [e]. *)
Definition try_ {A B} (body : M A) (handler : exn -> option (M B)) (orelse : A -> M B)
  : M B :=
  fun st =>
    match body st with
    | (Ret a, st') => orelse a st'
    | (Raise e, st') =>
        match handler e with
        | Some h => h st'
        | None => (Raise e, st')
        end
    end.

(** [for x in l: body x]. *)
Fixpoint for_ {A} (l : list A) (body : A -> M unit) : M unit :=
  match l with
  | [] => mret tt
  | x :: l' => body x;; for_ l' body
  end.

(** [logger.<lvl>(msg)]: a record below [LOGGING_LEVEL] is dropped. *)
Definition log (lvl : level) (msg : string) : M unit :=
  if Nat.leb (levelno LOGGING_LEVEL) (levelno lvl) then emit (Log lvl msg)
  else mret tt.

(** [logger.exception(msg)]: an [ERROR] record with the traceback of the
    exception being handled. *)
Definition log_exception (msg : string) (e : exn) : M unit :=
  emit (LogException msg e).

(** The events of a trace that are fetch attempts and backend requests. *)
Definition attempts (t : list event) : list (string * string) :=
  omap (fun ev => match ev with Try u p => Some (u, p) | _ => None end) t.

Definition requests (t : list event) : list (string * string) :=
  omap (fun ev => match ev with Request _ u p => Some (u, p) | _ => None end) t.

(** A computation that hands nothing to a download backend, however it
    ends. *)
Definition quiet {A} (m : M A) : Prop :=
  forall st, requests (trace (snd (m st))) = requests (trace st).

End Run.
Export Run.

(** ** The world outside the program *)

(** How the remote server answers a GET. *)
Inductive response : Type :=
| Ok200 (body : content)
| HTTPStatus (code : Z)
| Unreachable (reason : string).

Record world : Type := {
  smartDlEnabled : bool;              (* [from pySmartDL import SmartDL] worked *)
  progressist_installed : bool;       (* [from progressist import ProgressBar] works *)
  SCRIPT_DIR : string;
  urlparse_scheme : string -> string; (* [urlparse(url).scheme] *)
  urlparse_netloc : string -> string; (* [urlparse(url).netloc] *)
  remote : string -> response
}.

(** ** The program *)

Definition TAB : string := String "009" EmptyString.

Definition DOWNLOADED_FULLY_FILENAME : string := "rec_fully_downloaded.txt".
Definition DOWNLOADED_MEETINGS_FOLDER : string := "downloadedMeetings".

(** The names bound at module level of [bbb-player.py]. *)
Definition module_globals : list string :=
  [ "argparse"; "urlparse"; "os"; "urllib"; "json"; "copy_tree"; "traceback";
    "re"; "timedelta"; "logging"; "LOGGING_LEVEL"; "DOWNLOADED_FULLY_FILENAME";
    "DOWNLOADED_MEETINGS_FOLDER"; "DEFAULT_COMBINED_VIDEO_NAME";
    "COMBINED_VIDEO_FORMAT"; "SCRIPT_DIR"; "logger"; "SmartDL"; "smartDlEnabled";
    "ffmpegCombine"; "downloadFiles"; "downloadSlides"; "createFolder";
    "create_app"; "downloadScript"; "app" ].

(** The names assigned in the body of each fetching function. *)
Definition downloadFiles_locals : list string :=
  [ "baseURL"; "basePath"; "filesForDL"; "i"; "file"; "downloadURL"; "savePath";
    "smartDl"; "e" ].

Definition downloadSlides_locals : list string :=
  [ "baseURL"; "basePath"; "f"; "data"; "element"; "noSlides"; "i";
    "downloadURL"; "savePath"; "smartDl"; "e" ].

Definition filesForDL : list string :=
  [ "captions.json"; "cursor.xml"; "deskshare.xml"; "presentation/deskshare.png";
    "metadata.xml"; "panzooms.xml"; "presentation_text.json"; "shapes.svg";
    "slides_new.xml"; "video/webcams.webm"; "video/webcams.mp4";
    "deskshare/deskshare.webm"; "deskshare/deskshare.mp4" ].

Section Program.

Variable w : world.

(** Evaluating a name in a function body: local, then module level.  No
    builtin is called [bar]. *)
Definition lookup_name (locals : list string) (x : string) : M unit :=
  if existsb (String.eqb x) (locals ++ module_globals) then mret tt
  else raise (NameError x).

(** A backend fetches [url] to [path]. *)
Definition transfer (b : backend) (url path : string) : M unit :=
  emit (Request b url path);;
  match remote w url with
  | Ok200 body => fs_update (fun fs => write_file fs path body)
  | HTTPStatus code => raise (HTTPError code)
  | Unreachable reason => raise (URLError reason)
  end.

(** The body of the [try] block of a per-file fetch.  On the urllib path
    the argument [bar.on_urlretrieve if bar else None] is evaluated before
    [urlretrieve] is called. *)
Definition fetch (locals : list string) (downloadURL savePath : string) : M unit :=
  emit (Try downloadURL savePath);;
  if smartDlEnabled w then transfer SmartDL downloadURL savePath
  else (lookup_name locals "bar";; transfer Urlretrieve downloadURL savePath).

(** The two [except] clauses of a per-file fetch:
    [except urllib.error.HTTPError as e: if e.code == 404: logger.warning(..)]
    and [except Exception: logger.exception("")]. *)
Definition on_error (warning : string) (e : exn) : option (M unit) :=
  match e with
  | HTTPError code =>
      Some (if (code =? 404)%Z then log WARNING warning else mret tt)
  | _ => if is_Exception e then Some (log_exception "" e) else None
  end.

Definition createFolder (path : string) : M unit :=
  try_ (fs_update (fun fs => makedirs fs path))
       (fun e =>
          if is_OSError e
          then Some (log DEBUG ("Creation of the directory " +:+ path +:+ " failed"))
          else None)
       (fun _ => log DEBUG ("Successfully created the directory " +:+ path +:+ " ")).

Definition downloadFiles (baseURL basePath : string) : M unit :=
  for_ (enumerate filesForDL) (fun '(i, file) =>
    log INFO ("[" +:+ str (i + 1) +:+ "/" +:+ str (length filesForDL)
              +:+ "] Downloading " +:+ file);;
    let downloadURL := baseURL +:+ file in
    log DEBUG downloadURL;;
    let savePath := os_path_join basePath [file] in
    log DEBUG savePath;;
    try_ (fetch downloadFiles_locals downloadURL savePath)
         (on_error ("Did not download " +:+ file +:+ " because of 404 error"))
         mret).

(** [with open(path, encoding="utf8") as f: data = json.load(f)]. *)
Definition load_json (path : string) : M pyval :=
  fs ← get_fs;
  c ← lift (read_file fs path);
  match c with
  | Document j => mret (json_load j)
  | Bytes _ => raise JSONDecodeError
  end.

Definition slide_url (baseURL element : string) (i : nat) : string :=
  baseURL +:+ "presentation/" +:+ element +:+ "/slide-" +:+ str i +:+ ".png".

Definition slide_path (basePath element : string) (i : nat) : string :=
  os_path_join basePath ["presentation"; element; "slide-" +:+ str i +:+ ".png"].

Definition thumb_url (baseURL element : string) (i : nat) : string :=
  baseURL +:+ "presentation/" +:+ element +:+ "/thumbnails/thumb-" +:+ str i +:+ ".png".

Definition thumb_path (basePath element : string) (i : nat) : string :=
  os_path_join basePath
    ["presentation"; element; "thumbnails"; "thumb-" +:+ str i +:+ ".png"].

(** The body of [for element in data]. *)
Definition download_element (baseURL basePath : string) (data element : pyval)
  : M unit :=
  log DEBUG (py_str element);;
  slides ← lift (py_getitem data element);
  noSlides ← lift (py_len slides);
  log DEBUG (str noSlides);;
  name ← lift (as_str element);
  createFolder (os_path_join basePath ["presentation"; name]);;
  log INFO ("Downloading " +:+ str noSlides +:+ " slides for the presentation");;
  for_ (seq 1 noSlides) (fun i =>
    log DEBUG ("Downloading slide " +:+ str i +:+ "/" +:+ str noSlides);;
    let downloadURL := slide_url baseURL name i in
    let savePath := slide_path basePath name i in
    log DEBUG downloadURL;;
    log DEBUG savePath;;
    try_ (fetch downloadSlides_locals downloadURL savePath)
         (on_error ("Did not download " +:+ name +:+ "/slide-" +:+ str i +:+ ".png"))
         mret);;
  createFolder (os_path_join basePath ["presentation"; name; "thumbnails"]);;
  log INFO ("Downloading " +:+ str noSlides +:+ " thumbnails for the presentation");;
  for_ (seq 1 noSlides) (fun i =>
    let downloadURL := thumb_url baseURL name i in
    let savePath := thumb_path basePath name i in
    log DEBUG ("Download url:" +:+ TAB +:+ downloadURL);;
    log DEBUG ("Download path:" +:+ TAB +:+ savePath);;
    try_ (fetch downloadSlides_locals downloadURL savePath)
         (on_error ("Did not download " +:+ name +:+ "/slide-" +:+ str i +:+ ".png"))
         mret).

Definition downloadSlides (baseURL basePath : string) : M unit :=
  data ← load_json (basePath +:+ "/presentation_text.json");
  n ← lift (py_len data);
  log INFO ("Downloading " +:+ str n +:+ " presentations");;
  elements ← lift (py_iter data);
  for_ elements (download_element baseURL basePath data).

(** *** [downloadScript] *)

(** A group of a match as [format] shows it. *)
Definition shown (g : option string) : string := default "None" g.

Definition baseURL_of (inputURL meetingId : string) : string :=
  urlparse_scheme w inputURL +:+ "://" +:+ urlparse_netloc w inputURL
    +:+ "/presentation/" +:+ meetingId +:+ "/".

Definition folderPath_of (meetingNameWanted : option string) (meetingId : string)
  : string :=
  if truthy meetingNameWanted
  then os_path_join (SCRIPT_DIR w)
         [DOWNLOADED_MEETINGS_FOLDER; default "" meetingNameWanted]
  else os_path_join (SCRIPT_DIR w) [DOWNLOADED_MEETINGS_FOLDER; meetingId].

Definition sentinel_path (folderPath : string) : string :=
  os_path_join folderPath [DOWNLOADED_FULLY_FILENAME].

(** Lines 279 to 296: the session folders and the optional progress bar. *)
Definition prepare (folderPath : string) : M unit :=
  log INFO "Folder already created but not everything was downloaded. Retrying.";;
  let foldersToCreate :=
    map (fun x => os_path_join folderPath [x]) [""; "video"; "deskshare"; "presentation"] in
  for_ foldersToCreate createFolder;;
  if progressist_installed w then mret tt
  else log WARNING
         ("progressist not imported. Progress bar will not be shown. Try running: "
          +:+ "                                pip3 install progressist").

(** Lines 301 to 308: the player is copied in, then the marker is created. *)
Definition finish (folderPath : string) : M unit :=
  fs_update (fun fs => copy_tree fs (os_path_join (SCRIPT_DIR w) ["player23"]) folderPath);;
  fs_update (fun fs => write_file fs (sentinel_path folderPath) (Bytes "")).

Definition download (baseURL folderPath : string) : M unit :=
  prepare folderPath;;
  downloadFiles baseURL folderPath;;
  downloadSlides baseURL folderPath;;
  finish folderPath.

Definition downloadScript (inputURL : string) (meetingNameWanted : option string)
  : M unit :=
  match Re.search session_re inputURL with
  | Some matchesURL =>
      if Nat.eqb (length (Re.groups session_re_groups matchesURL)) 2 then
        let bbbVersion := shown (Re.group matchesURL 1) in
        let meetingId := shown (Re.group matchesURL 2) in
        log INFO ("Detected bbb version:" +:+ TAB +:+ bbbVersion);;
        log INFO ("Detected meeting id:" +:+ TAB +:+ meetingId);;
        let baseURL := baseURL_of inputURL meetingId in
        log DEBUG ("Base url: " +:+ baseURL);;
        let folderPath := folderPath_of meetingNameWanted meetingId in
        log DEBUG ("Folder path: " +:+ folderPath);;
        fs ← get_fs;
        if isfile fs (sentinel_path folderPath)
        then log INFO "Meeting is already downloaded."
        else download baseURL folderPath
      else
        log ERROR "Meeting ID could not be found in the url.";;
        raise (SystemExit 1)
  | None =>
      log ERROR "Meeting ID could not be found in the url.";;
      raise (SystemExit 1)
  end.

(** *** The page of downloaded sessions ([hello] inside [create_app]) *)

Definition downloadedMeetingsFolderPath : string :=
  os_path_join (SCRIPT_DIR w) [DOWNLOADED_MEETINGS_FOLDER].

(** [sorted([folder for folder in os.listdir(root) if os.path.isdir(..)])]. *)
Definition meetingFolders_of (fs : gmap string node) (names : list string)
  : list string :=
  sorted (filter (fun folder =>
                    isdir fs (os_path_join downloadedMeetingsFolderPath [folder]) = true)
                 names).

Definition has_player23 (fs : gmap string node) (m : string) : bool :=
  (isfile fs (os_path_join downloadedMeetingsFolderPath [m; "index.html"])
   && isfile fs (os_path_join downloadedMeetingsFolderPath [m; "asset-manifest.json"]))%bool.

Definition meetingLink (fs : gmap string node) (m : string) : string * string :=
  if has_player23 fs m
  then ("/" +:+ DOWNLOADED_MEETINGS_FOLDER +:+ "/" +:+ m +:+ "/index.html", m)
  else ("/" +:+ DOWNLOADED_MEETINGS_FOLDER +:+ "/" +:+ m +:+ "/player/playback.html", m).

(** The arguments [hello] hands to [render_template]: the links and the
    message. *)
Definition hello (message : string) : M (list (string * string) * string) :=
  fs ← get_fs;
  names ← lift (listdir fs downloadedMeetingsFolderPath);
  let meetingFolders := meetingFolders_of fs names in
  (if Nat.eqb (length meetingFolders) 0
   then log WARNING ("Meeting folder /" +:+ DOWNLOADED_MEETINGS_FOLDER
                     +:+ " is empty. Download at least one meeting first using the --download argument")
   else mret tt);;
  mret (map (meetingLink fs) meetingFolders, message).

(** The session folders the page lists. *)
Definition session_folders (fs : gmap string node) : outcome (list string) :=
  match listdir fs downloadedMeetingsFolderPath with
  | Ret names => Ret (meetingFolders_of fs names)
  | Raise e => Raise e
  end.

(** Whether a session folder holds the completion marker. *)
Definition has_sentinel (fs : gmap string node) (m : string) : bool :=
  isfile fs (sentinel_path (os_path_join downloadedMeetingsFolderPath [m])).

End Program.

(** ** What the specification counts

    The definitions of this part follow the words of the specification; the
    program above is compared with them. *)

(** [slideCount]: the length of the value an element is mapped to. *)
Definition spec_slideCount (data element : pyval) : nat :=
  match py_getitem data element with
  | Ret v => match py_len v with Ret n => n | Raise _ => 0 end
  | Raise _ => 0
  end.

(** The fetches of one element: its slides in ascending order, then its
    thumbnails in ascending order, each with its remote and its local path. *)
Definition spec_element_fetches (baseURL basePath : string) (data element : pyval)
  : list (string * string) :=
  match as_str element with
  | Ret name =>
      map (fun i => (slide_url baseURL name i, slide_path basePath name i))
          (seq 1 (spec_slideCount data element))
      ++ map (fun i => (thumb_url baseURL name i, thumb_path basePath name i))
             (seq 1 (spec_slideCount data element))
  | Raise _ => []
  end.

(** An element the expander can work on: it is a string, and what it is
    mapped to has a length. *)
Definition expandable (data element : pyval) : bool :=
  match py_getitem data element with
  | Ret v =>
      match py_len v, as_str element with
      | Ret _, Ret _ => true
      | _, _ => false
      end
  | Raise _ => false
  end.


(** ** A concrete site, for evaluating the program *)

(** ** The web application ([create_app] and its two handlers) *)

(** [str.isspace] on one character, for the characters of [ascii]: the
    controls 9 to 13 and 28 to 31, the space, NEL (133) and the no-break
    space (160). *)
Definition isspace (c : ascii) : bool :=
  let n := nat_of_ascii c in
  (Nat.leb 9 n && Nat.leb n 13 || Nat.leb 28 n && Nat.leb n 32
   || Nat.eqb n 133 || Nat.eqb n 160)%bool.

Fixpoint lstrip (s : string) : string :=
  match s with
  | String c s' => if isspace c then lstrip s' else s
  | EmptyString => EmptyString
  end.

Fixpoint rstrip (s : string) : string :=
  match s with
  | EmptyString => EmptyString
  | String c s' =>
      match rstrip s' with
      | EmptyString => if isspace c then EmptyString else String c EmptyString
      | r => String c r
      end
  end.

(** [s.strip()]. *)
Definition strip (s : string) : string := lstrip (rstrip s).

(** [s.replace(old, new)] for one-character [old] and [new]. *)
Fixpoint replace (old new : ascii) (s : string) : string :=
  match s with
  | EmptyString => EmptyString
  | String c s' => String (if Ascii.eqb c old then new else c) (replace old new s')
  end.

(** [form[key]] on the submitted form: the first value of the field, and
    [KeyError] when the form has no such field. *)
Fixpoint form_get (form : list (string * string)) (key : string) : outcome string :=
  match form with
  | [] => Raise (KeyError key)
  | (k, v) :: rest => if String.eqb k key then Ret v else form_get rest key
  end.

Definition NEWLINE : string := String "010" EmptyString.

Section App.

Variable w : world.

(** The body of the loop of [create_app]: the 2.3 player is copied over a
    session folder that lacks it. *)
Definition upgrade (m : string) : M unit :=
  fs ← get_fs;
  if has_player23 w fs m then mret tt
  else
    log INFO ("An older 2.0 bbb player detected in meeting " +:+ m
              +:+ ". Copying 2.3 player over it");;
    let player23Folder := os_path_join (SCRIPT_DIR w) ["player23"] in
    let meetingFolder := os_path_join (downloadedMeetingsFolderPath w) [m] in
    fs_update (fun fs => copy_tree fs player23Folder meetingFolder).

(** Lines 158 to 189 of [create_app]: the two checks and the upgrade of the
    recordings that lack the 2.3 player.  Whether Flask can be imported and
    the working directory are given; the Flask object and the registration
    of the handlers have no effect on the state and are left out. *)
Definition create_app (flask_installed : bool) (cwd : string) : M unit :=
  (if flask_installed then mret tt
   else
     log ERROR ("Flask not imported. Try running:" +:+ NEWLINE +:+ "pip3 install Flask");;
     raise (SystemExit 1));;
  log DEBUG "Flask imported.";;
  fs ← get_fs;
  (if isdir fs (downloadedMeetingsFolderPath w) then mret tt
   else
     log ERROR "Meetings folder is not present. Download at least one meeting first using the --download argument";;
     raise (SystemExit 1));;
  log DEBUG ("Current path: " +:+ cwd);;
  fs ← get_fs;
  names ← lift (listdir fs (downloadedMeetingsFolderPath w));
  let meetingFolders := meetingFolders_of w fs names in
  for_ meetingFolders upgrade.

(** The handler of a submitted form (lines 198 to 216).  The texts of the
    page are written as in the source; in a [string] they are the bytes of
    their UTF-8 form. *)
Definition api_dl_meeting (form : list (string * string))
  : M (list (string * string) * string) :=
  meeting_name ← lift (form_get form "meeting-name");
  filled ← (if truthy (Some meeting_name)
            then meeting_url ← lift (form_get form "meeting-url");
                 mret (truthy (Some meeting_url))
            else mret false);
  if filled : bool then
    meeting_name ← lift (form_get form "meeting-name");
    let name := replace " " "_" (strip meeting_name) in
    meeting_url ← lift (form_get form "meeting-url");
    let url := strip meeting_url in
    downloadScript w url (Some name);;
    let message := " دانلود جلسه " +:+ name +:+ " ناموفق بود، لطفا مجددا تلاش نمایید." in
    hello w message
  else
    let message := "خطایی در دانلود جلسه رخ داد، لطفا مجددا تلاش نمایید." in
    hello w message.

End App.

(** ** Predicates of the statements *)



(** Whether the nodes below [src] meet, at the same place below [dst],
    nothing or a node of their own kind.  Where this holds, [copy_tree]
    writes no file where a directory is and makes no directory where a file
    is. *)
Definition same_kind (a b : node) : bool :=
  match a, b with
  | File _, File _ | Dir, Dir => true
  | _, _ => false
  end.

Definition fits (disk : gmap string node) (src dst : string) : bool :=
  forallb (fun kn =>
             match strip_prefix (src +:+ "/") (fst kn) with
             | Some rest =>
                 match disk !! (dst +:+ "/" +:+ rest) with
                 | Some n => same_kind (snd kn) n
                 | None => true
                 end
             | None => true
             end)
          (map_to_list disk).

(** A script directory with the bundled player, and one recording of the
    older kind among the downloaded meetings. *)
Definition old_recording : gmap string node :=
  {[ "/opt/bbb" := Dir;
     "/opt/bbb/player23" := Dir;
     "/opt/bbb/player23/index.html" := File (Bytes "<html>");
     "/opt/bbb/player23/asset-manifest.json" := File (Document (JObject []));
     "/opt/bbb/downloadedMeetings" := Dir;
     "/opt/bbb/downloadedMeetings/m" := Dir;
     "/opt/bbb/downloadedMeetings/m/metadata.xml" := File (Bytes "<recording>") ]}.

Module Example.

Definition meetingId : string :=
  "0123456789abcdef0123456789abcdef01234567-1234567890123".

Definition url : string :=
  "https://bbb.example.com/playback/presentation/2.3/" +:+ meetingId.

Definition baseURL : string :=
  "https://bbb.example.com/presentation/" +:+ meetingId +:+ "/".

(** A session with one presentation of three slides. *)
Definition doc : json :=
  JObject [("e1", JArray [JString "a"; JString "b"; JString "c"])].

(** The server has the metadata, answers 500 for the cursor file, cannot be
    reached for the shapes and has nothing else. *)
Definition server (u : string) : response :=
  if String.eqb u (baseURL +:+ "presentation_text.json") then Ok200 (Document doc)
  else if String.eqb u (baseURL +:+ "cursor.xml") then HTTPStatus 500
  else if String.eqb u (baseURL +:+ "shapes.svg") then Unreachable "timed out"
  else HTTPStatus 404.

Definition site (smart : bool) : world :=
  {| smartDlEnabled := smart;
     progressist_installed := false;
     SCRIPT_DIR := "/opt/bbb";
     urlparse_scheme := fun _ => "https";
     urlparse_netloc := fun _ => "bbb.example.com";
     remote := server |}.

(** The script directory as the repository ships it, and without the
    player folder. *)
Definition installed : gmap string node :=
  {[ "/opt/bbb" := Dir;
     "/opt/bbb/player23" := Dir;
     "/opt/bbb/player23/index.html" := File (Bytes "<html>") ]}.


Definition start (disk : gmap string node) : state :=
  {| fs := disk; trace := [] |}.

Definition session_dir : string := "/opt/bbb/downloadedMeetings/lecture".

(** The disk after the session folders were made. *)
Definition provisioned : gmap string node :=
  <[session_dir +:+ "/presentation" := Dir]>
    (<[session_dir +:+ "/deskshare" := Dir]>
       (<[session_dir +:+ "/video" := Dir]>
          (<[session_dir := Dir]>
             (<["/opt/bbb/downloadedMeetings" := Dir]> installed)))).

(** A session folder with metadata of a given content already in it. *)
Definition with_metadata (c : content) : gmap string node :=
  <[session_dir +:+ "/presentation_text.json" := File c]>
    (<[session_dir := Dir]> installed).

(** Two meeting roots with the same folder, neither marked complete; only
    the first holds the 2.3 player. *)
Definition listing_a : gmap string node :=
  {[ "/opt/bbb/downloadedMeetings" := Dir;
     "/opt/bbb/downloadedMeetings/m" := Dir;
     "/opt/bbb/downloadedMeetings/m/index.html" := File (Bytes "");
     "/opt/bbb/downloadedMeetings/m/asset-manifest.json" := File (Bytes "") ]}.

Definition listing_b : gmap string node :=
  {[ "/opt/bbb/downloadedMeetings" := Dir;
     "/opt/bbb/downloadedMeetings/m" := Dir ]}.

(** The second, marked complete. *)
Definition listing_c : gmap string node :=
  <["/opt/bbb/downloadedMeetings/m/rec_fully_downloaded.txt" := File (Bytes "")]>
    listing_b.

End Example.

(** ** Facts about the matcher *)

Open Scope nat_scope.
Open Scope list_scope.

Section ReFacts.

Import Re.

Lemma rep_stop {R} lo (k : list ascii -> nat -> option R) n s pos r :
  (if Nat.leb lo n then k s pos else None) = Some r →
  lo ≤ n ∧ k s pos = Some r.
Proof.
  destruct (Nat.leb lo n) eqn:E; [|discriminate].
  apply Nat.leb_le in E. auto.
Qed.

(** A quantifier that matches took a run of characters of its class, within
    its bounds, and then the rest of the pattern matched. *)
Lemma rep_inv {R} p lo hi g (k : list ascii -> nat -> option R) s :
  ∀ n pos r, rep p lo hi g k n s pos = Some r →
    ∃ pre s', s = pre ++ s' ∧ Forall (fun c => p c = true) pre ∧
      lo ≤ n + length pre ∧
      (∀ h, hi = Some h → n + length pre ≤ Nat.max n h) ∧
      k s' (pos + length pre) = Some r.
Proof.
  assert (Hstop : ∀ (s : list ascii) n pos r,
    (if Nat.leb lo n then k s pos else None) = Some r →
    ∃ pre s', s = pre ++ s' ∧ Forall (fun c => p c = true) pre ∧
      lo ≤ n + length pre ∧
      (∀ h, hi = Some h → n + length pre ≤ Nat.max n h) ∧
      k s' (pos + length pre) = Some r).
  { intros s0 n pos r H. apply rep_stop in H as [Hlo Hk].
    exists [], s0. simpl. rewrite !Nat.add_0_r.
    repeat split; auto. intros h _. lia. }
  induction s as [|ch s IH]; intros n pos r H.
  - simpl in H. destruct g.
    + now apply Hstop.
    + destruct (if Nat.leb lo n then k [] pos else None) eqn:E; [|discriminate].
      inversion H; subst. now apply Hstop.
  - simpl in H.
    assert (Hmore : ∀ r,
      (if (p ch && below n hi)%bool then rep p lo hi g k (S n) s (S pos) else None)
        = Some r →
      ∃ pre s', ch :: s = pre ++ s' ∧ Forall (fun c => p c = true) pre ∧
        lo ≤ n + length pre ∧
        (∀ h, hi = Some h → n + length pre ≤ Nat.max n h) ∧
        k s' (pos + length pre) = Some r).
    { intros r0 Hr. destruct (p ch && below n hi)%bool eqn:E; [|discriminate].
      apply andb_prop in E as [Hp Hb].
      apply IH in Hr as (pre & s' & -> & Hall & Hlo & Hhi & Hk).
      exists (ch :: pre), s'. simpl.
      repeat split; auto.
      - lia.
      - intros h Hh. specialize (Hhi h Hh). subst hi. simpl in Hb.
        apply Nat.ltb_lt in Hb. lia.
      - now replace (pos + S (length pre)) with (S pos + length pre) by lia. }
    destruct g.
    + destruct (if (p ch && below n hi)%bool
                then rep p lo hi true k (S n) s (S pos) else None) eqn:E.
      * inversion H; subst. now apply Hmore.
      * now apply Hstop.
    + destruct (if Nat.leb lo n then k (ch :: s) pos else None) eqn:E.
      * inversion H; subst. now apply Hstop.
      * now apply Hmore.
Qed.

Lemma skipn_shift {A} (text pre s' : list A) pos :
  skipn pos text = pre ++ s' → skipn (pos + length pre) text = s'.
Proof.
  intros H. rewrite Nat.add_comm, <- skipn_skipn, H.
  rewrite skipn_app, skipn_all, Nat.sub_diag. reflexivity.
Qed.

(** Matching a pattern reaches each of its suffixes, at a later offset of
    the same subject. *)
Lemma match_here_app pre post :
  ∀ s pos c r, match_here (pre ++ post) s pos c = Some r →
    ∃ s' pos' c', match_here post s' pos' c' = Some r ∧
      ∀ text, skipn pos text = s → skipn pos' text = s'.
Proof.
  induction pre as [|it pre IH]; intros s pos c r H.
  - exists s, pos, c. auto.
  - destruct it as [p lo hi g|g|g]; simpl in H.
    + apply rep_inv in H as (run & s1 & -> & _ & _ & _ & Hk).
      apply IH in Hk as (s' & pos' & c' & Hm & Hpos).
      exists s', pos', c'. split; [exact Hm|].
      intros text Ht. apply Hpos. now apply skipn_shift.
    + apply IH in H as (s' & pos' & c' & Hm & Hpos). eauto.
    + apply IH in H as (s' & pos' & c' & Hm & Hpos). eauto.
Qed.

(** A class taken exactly [n] times. *)
Lemma exactly_inv n p rest s pos c r :
  match_here (exactly n p :: rest) s pos c = Some r →
  ∃ run s', s = run ++ s' ∧ length run = n ∧ Forall (fun x => p x = true) run ∧
    match_here rest s' (pos + n) c = Some r.
Proof.
  unfold exactly. simpl. intros H.
  apply rep_inv in H as (run & s' & -> & Hall & Hlo & Hhi & Hk).
  specialize (Hhi n eq_refl). simpl in *.
  assert (length run = n) as Hlen by lia.
  exists run, s'. rewrite Hlen in Hk. auto.
Qed.

Lemma one_inv p rest s pos c r :
  match_here (one p :: rest) s pos c = Some r →
  ∃ x s', s = x :: s' ∧ p x = true ∧ match_here rest s' (pos + 1) c = Some r.
Proof.
  intros H. apply (exactly_inv 1) in H as (run & s' & -> & Hlen & Hall & Hk).
  destruct run as [|x [|y run]]; try discriminate.
  inversion Hall; subst. exists x, s'. auto.
Qed.

(** The second group of the pattern. *)
Lemma meeting_id_items_inv s pos c e c' :
  match_here meeting_id_items s pos c = Some (e, c') →
  ∃ l rest, s = l ++ rest ∧ is_meeting_id l ∧
    spans c' = (2, (pos, pos + 54)) :: spans c.
Proof.
  unfold meeting_id_items. intros H. simpl in H.
  change (rep is_hex 40 (Some 40) true ?k 0 s pos)
    with (match_here (exactly 40 is_hex :: one (is_char "-") :: exactly 13 is_digit
                        :: Close 2 :: opt (is_char "/") :: nil)
                     s pos (open_group 2 pos c)) in H.
  apply exactly_inv in H as (h & s1 & -> & Hh & Hhex & H).
  apply one_inv in H as (x & s2 & -> & Hx & H).
  apply exactly_inv in H as (d & s3 & -> & Hd & Hdig & H).
  simpl in H. apply rep_inv in H as (run & s4 & -> & _ & _ & _ & H).
  inversion H; subst.
  unfold is_char in Hx. apply Ascii.eqb_eq in Hx. subst x.
  exists (h ++ "-"%char :: d), (run ++ s4). split; [|split].
  - rewrite <- app_assoc. reflexivity.
  - exists h, d. auto.
  - unfold close_group, open_group. simpl.
    replace (pos + 40 + 1 + 13) with (pos + 54) by lia. reflexivity.
Qed.

Lemma search_from_inv items s :
  ∀ pos b e c, search_from items s pos = Some (b, e, c) →
    ∃ s', match_here items s' b no_caps = Some (e, c) ∧
      ∀ text, skipn pos text = s → skipn b text = s'.
Proof.
  induction s as [|x s IH]; intros pos b e c H; simpl in H.
  - destruct (match_here items [] pos no_caps) as [[e0 c0]|] eqn:E; [|discriminate].
    inversion H; subst. eauto.
  - destruct (match_here items (x :: s) pos no_caps) as [[e0 c0]|] eqn:E.
    + inversion H; subst. eauto.
    + apply IH in H as (s' & Hm & Hpos). exists s'. split; [exact Hm|].
      intros text Ht. apply Hpos.
      replace (S pos) with (pos + length [x]) by (simpl; lia).
      apply skipn_shift. exact Ht.
Qed.

(** Whatever url the pattern is found in, its second group is 40
    hexadecimal digits, a hyphen and 13 decimal digits. *)
Lemma session_re_group2 url m :
  search session_re url = Some m →
  ∃ l, group m 2 = Some (string_of_list_ascii l) ∧ is_meeting_id l.
Proof.
  unfold search. intros H.
  destruct (search_from session_re (list_ascii_of_string url) 0)
    as [[[b e] c]|] eqn:E; [|discriminate].
  inversion H; subst m; clear H.
  apply search_from_inv in E as (s' & Hm & Hpos).
  unfold session_re in Hm.
  apply match_here_app in Hm as (s2 & pos2 & c2 & Hm & Hpos2).
  apply meeting_id_items_inv in Hm as (l & rest & -> & Hid & Hsp).
  exists l. split; [|exact Hid].
  unfold group. simpl. rewrite Hsp. simpl.
  f_equal. f_equal. unfold slice.
  rewrite (Hpos2 (list_ascii_of_string url)).
  - replace (pos2 + 54 - pos2) with 54 by lia.
    destruct Hid as (h & d & -> & Hh & _ & Hd & _).
    rewrite firstn_app.
    replace (54 - length (h ++ "-"%char :: d)) with 0
      by (rewrite length_app; simpl; lia).
    rewrite firstn_all2 by (rewrite length_app; simpl; lia).
    simpl. now rewrite app_nil_r.
  - apply Hpos. reflexivity.
Qed.

End ReFacts.

(** ** Running the monad *)

Section RunFacts.

Lemma bind_run {A B} (m : M A) (f : A → M B) st :
  (m ≫= f) st =
  match m st with
  | (Ret a, st') => f a st'
  | (Raise e, st') => (Raise e, st')
  end.
Proof. reflexivity. Qed.

Lemma bind_ret {A B} (m : M A) (f : A → M B) st a st' :
  m st = (Ret a, st') → (m ≫= f) st = f a st'.
Proof. intros H. now rewrite bind_run, H. Qed.

Lemma bind_raise {A B} (m : M A) (f : A → M B) st e st' :
  m st = (Raise e, st') → (m ≫= f) st = (Raise e, st').
Proof. intros H. now rewrite bind_run, H. Qed.

Lemma log_debug msg : log DEBUG msg = mret tt.
Proof. reflexivity. Qed.

Lemma log_run lvl msg st :
  lvl ≠ DEBUG →
  log lvl msg st = (Ret tt, {| fs := fs st; trace := trace st ++ [Log lvl msg] |}).
Proof. destruct lvl; intros H; try reflexivity. now destruct H. Qed.

Lemma attempts_app t1 t2 : attempts (t1 ++ t2) = attempts t1 ++ attempts t2.
Proof. apply omap_app. Qed.

Lemma requests_app t1 t2 : requests (t1 ++ t2) = requests t1 ++ requests t2.
Proof. apply omap_app. Qed.


(** A loop whose every round returns and keeps [P] returns and keeps [P]. *)
Lemma for_preserve {A} (P : state → Prop) (body : A → M unit) l :
  (∀ x st, In x l → P st → ∃ st', body x st = (Ret tt, st') ∧ P st') →
  ∀ st, P st → ∃ st', for_ l body st = (Ret tt, st') ∧ P st'.
Proof.
  induction l as [|x l IH]; intros Hbody st HP.
  - exists st. auto.
  - destruct (Hbody x st) as (st1 & H1 & HP1); [now left|exact HP|].
    destruct (IH (fun y s Hy => Hbody y s (or_intror Hy)) st1 HP1) as (st2 & H2 & HP2).
    exists st2. split; [|exact HP2].
    simpl. now rewrite (bind_ret _ _ _ _ _ H1).
Qed.

Lemma ret_bind {A B} (a : A) (f : A → M B) st : (mret a ≫= f) st = f a st.
Proof. reflexivity. Qed.

Lemma lift_bind {A B} (o : outcome A) (a : A) (f : A → M B) st :
  o = Ret a → (lift o ≫= f) st = f a st.
Proof. intros ->. reflexivity. Qed.

Lemma lift_ret_bind {A B} (a : A) (f : A → M B) st : (lift (Ret a) ≫= f) st = f a st.
Proof. reflexivity. Qed.

Lemma log_debug_bind {B} msg (f : unit → M B) st : (log DEBUG msg ≫= f) st = f tt st.
Proof. reflexivity. Qed.

Lemma log_bind {B} lvl msg (f : unit → M B) st :
  lvl ≠ DEBUG → (log lvl msg ≫= f) st = f tt (add st [Log lvl msg]).
Proof. intros H. now rewrite bind_run, log_run. Qed.

End RunFacts.

(** Runs the binds whose first computation is known to return. *)
Ltac mrun :=
  repeat (first [ rewrite log_debug_bind | rewrite lift_ret_bind | rewrite ret_bind
                | rewrite log_bind by discriminate ];
          cbv beta).

(** ** Facts about the per-file fetch *)

Section FetchFacts.

Variable w : world.

Lemma bar_unbound_files : lookup_name downloadFiles_locals "bar" = raise (NameError "bar").
Proof. reflexivity. Qed.

Lemma bar_unbound_slides : lookup_name downloadSlides_locals "bar" = raise (NameError "bar").
Proof. reflexivity. Qed.

Lemma write_file_raises disk path c e :
  write_file disk path c = Raise e → is_Exception e = true.
Proof.
  unfold write_file.
  destruct (isdir disk path); [|destruct (writable disk path)];
    intros H; inversion H; reflexivity.
Qed.

(** A transfer is announced, then it stores the body or raises an error of
    class [Exception]. *)
Lemma transfer_run b url path st :
  (∃ disk, transfer w b url path st
           = (Ret tt, {| fs := disk; trace := trace st ++ [Request b url path] |}))
  ∨ (∃ e, transfer w b url path st = (Raise e, add st [Request b url path])
          ∧ is_Exception e = true).
Proof.
  unfold transfer. rewrite bind_run. simpl.
  destruct (remote w url) as [body|code|reason]; simpl.
  - unfold fs_update. simpl.
    destruct (write_file (fs st) path body) as [disk|e] eqn:E.
    + left. eauto.
    + right. exists e. split; [reflexivity|]. eapply write_file_raises, E.
  - right. eexists. split; reflexivity.
  - right. eexists. split; reflexivity.
Qed.

(** The two [except] clauses catch every error of class [Exception], and
    what they do is at most one log record. *)
Lemma on_error_catches warning e st :
  is_Exception e = true →
  ∃ h evs, on_error warning e = Some h ∧ h st = (Ret tt, add st evs)
    ∧ attempts evs = [] ∧ requests evs = [].
Proof.
  intros He. unfold add. destruct e; try discriminate He; simpl;
    try (eexists _, [_]; repeat split; reflexivity).
  destruct (code =? 404)%Z.
  - eexists _, [_]. repeat split; reflexivity.
  - eexists _, []. simpl. rewrite app_nil_r. destruct st. repeat split; reflexivity.
Qed.

(** The [try] block: the attempt is marked, then a backend is called, unless
    the name [bar] stops the urllib path first. *)
Lemma fetch_run locals url path st :
  (∃ disk b, fetch w locals url path st
             = (Ret tt, {| fs := disk;
                           trace := trace st ++ [Try url path; Request b url path] |}))
  ∨ (∃ e b, fetch w locals url path st
            = (Raise e, add st [Try url path; Request b url path])
            ∧ is_Exception e = true)
  ∨ (smartDlEnabled w = false
     ∧ existsb (String.eqb "bar") (locals ++ module_globals) = false
     ∧ fetch w locals url path st = (Raise (NameError "bar"), add st [Try url path])).
Proof.
  unfold fetch. rewrite bind_run.
  change (emit (Try url path) st) with (Ret tt, add st [Try url path]).
  cbv beta iota.
  set (st1 := add st [Try url path]).
  assert (Htr : ∀ b, trace st1 ++ [Request b url path]
                     = trace st ++ [Try url path; Request b url path]).
  { intros b. unfold st1. simpl. now rewrite <- app_assoc. }
  assert (Hback : ∀ b,
    (∃ disk, transfer w b url path st1
             = (Ret tt, {| fs := disk;
                           trace := trace st ++ [Try url path; Request b url path] |}))
    ∨ (∃ e, transfer w b url path st1
            = (Raise e, add st [Try url path; Request b url path])
            ∧ is_Exception e = true)).
  { intros b. destruct (transfer_run b url path st1) as [(disk & H)|(e & H & He)].
    - left. exists disk. now rewrite H, Htr.
    - right. exists e. split; [|exact He]. rewrite H. unfold add. now rewrite Htr. }
  destruct (smartDlEnabled w).
  - destruct (Hback SmartDL) as [(disk & H)|(e & H & He)]; [left|right; left]; eauto.
  - unfold lookup_name.
    destruct (existsb (String.eqb "bar") (locals ++ module_globals)) eqn:Eb.
    + rewrite bind_run. cbv beta iota.
      destruct (Hback Urlretrieve) as [(disk & H)|(e & H & He)]; [left|right; left]; eauto.
    + right; right. repeat split; reflexivity.
Qed.


End FetchFacts.

(** ** The fixed-manifest fetcher *)

Section ManifestFacts.

Variable w : world.




End ManifestFacts.



(** ** What the handlers of a per-file fetch log *)

Section HandlerFacts.

Variable w : world.
Hypothesis smart : smartDlEnabled w = true.

Lemma smart_fetch_run locals url path st :
  fetch w locals url path st = transfer w SmartDL url path (add st [Try url path]).
Proof. unfold fetch. rewrite bind_run, smart. reflexivity. Qed.

(** A 404 is caught and reported by one warning. *)
Lemma fetch_404_warns locals url path warning st :
  remote w url = HTTPStatus 404 →
  try_ (fetch w locals url path) (on_error warning) mret st
  = (Ret tt, add st [Try url path; Request SmartDL url path; Log WARNING warning]).
Proof.
  intros H. unfold try_. rewrite smart_fetch_run.
  unfold transfer. rewrite bind_run, H. simpl.
  rewrite log_run by discriminate.
  unfold add. simpl. now rewrite <- !app_assoc.
Qed.

(** A failure that is no HTTP answer is caught and reported with its
    traceback. *)
Lemma fetch_unreachable_logs locals url path warning reason st :
  remote w url = Unreachable reason →
  try_ (fetch w locals url path) (on_error warning) mret st
  = (Ret tt, add st [Try url path; Request SmartDL url path;
                     LogException "" (URLError reason)]).
Proof.
  intros H. unfold try_. rewrite smart_fetch_run.
  unfold transfer. rewrite bind_run, H. simpl.
  unfold log_exception, emit, add. simpl. now rewrite <- !app_assoc.
Qed.

(** An HTTP error other than 404 is caught by the first clause, whose body
    does nothing for it: no record is made. *)
Lemma fetch_http_error_silent locals url path warning code st :
  remote w url = HTTPStatus code → code ≠ 404%Z →
  try_ (fetch w locals url path) (on_error warning) mret st
  = (Ret tt, add st [Try url path; Request SmartDL url path]).
Proof.
  intros H Hc. unfold try_. rewrite smart_fetch_run.
  unfold transfer. rewrite bind_run, H. simpl.
  destruct (code =? 404)%Z eqn:E; [apply Z.eqb_eq in E; contradiction|].
  unfold mret, M_ret, add. simpl. now rewrite <- !app_assoc.
Qed.

End HandlerFacts.

(** C3.  The code at the failing input: the server answers 500 for
    [cursor.xml].  The guarded fetch returns normally and the only events are
    the attempt and the request: the error is swallowed without any log
    record, whereas the 404 of the file before it is warned about and the
    unreachable [shapes.svg] is logged with its traceback. *)
Theorem C3_http_500_is_discarded_silently :
  let w := Example.site true in
  let st := Example.start Example.provisioned in
  let guarded f :=
    try_ (fetch w downloadFiles_locals (Example.baseURL +:+ f)
                (os_path_join Example.session_dir [f]))
         (on_error ("Did not download " +:+ f +:+ " because of 404 error")) mret in
  remote w (Example.baseURL +:+ "cursor.xml") = HTTPStatus 500
  ∧ guarded "cursor.xml" st
    = (Ret tt, add st [Try (Example.baseURL +:+ "cursor.xml")
                           (os_path_join Example.session_dir ["cursor.xml"]);
                       Request SmartDL (Example.baseURL +:+ "cursor.xml")
                           (os_path_join Example.session_dir ["cursor.xml"])])
  ∧ List.filter (fun ev => match ev with
                           | Log WARNING _ | LogException _ _ => true
                           | _ => false
                           end)
                (trace (snd (guarded "captions.json" st)))
    = [Log WARNING "Did not download captions.json because of 404 error"]
  ∧ List.filter (fun ev => match ev with
                           | Log WARNING _ | LogException _ _ => true
                           | _ => false
                           end)
                (trace (snd (guarded "shapes.svg" st)))
    = [LogException "" (URLError "timed out")]
  ∧ List.filter (fun ev => match ev with
                           | Log INFO _ | Try _ _ | Request _ _ _ => false
                           | _ => true
                           end)
                (trace (snd (downloadFiles w Example.baseURL Example.session_dir st)))
    = [ Log WARNING "Did not download captions.json because of 404 error";
        Log WARNING "Did not download deskshare.xml because of 404 error";
        Log WARNING "Did not download presentation/deskshare.png because of 404 error";
        Log WARNING "Did not download metadata.xml because of 404 error";
        Log WARNING "Did not download panzooms.xml because of 404 error";
        LogException "" (URLError "timed out");
        Log WARNING "Did not download slides_new.xml because of 404 error";
        Log WARNING "Did not download video/webcams.webm because of 404 error";
        Log WARNING "Did not download video/webcams.mp4 because of 404 error";
        Log WARNING "Did not download deskshare/deskshare.webm because of 404 error";
        Log WARNING "Did not download deskshare/deskshare.mp4 because of 404 error" ].
Proof.
  intros w st guarded. split; [reflexivity|]. split.
  - apply (fetch_http_error_silent w eq_refl downloadFiles_locals _ _ _ 500%Z).
    + reflexivity.
    + discriminate.
  - repeat split; vm_compute; reflexivity.
Qed.

(** ** The metadata-driven expander *)

Section ExpanderFacts.

Variable w : world.

(** The same for two quantities at once. *)
Lemma for_acc2 {A X Y} (mu : state → list X) (nu : state → list Y)
      (g : A → list X) (h : A → list Y) (body : A → M unit) l :
  (∀ x st, In x l → ∃ st', body x st = (Ret tt, st')
                       ∧ mu st' = mu st ++ g x ∧ nu st' = nu st ++ h x) →
  ∀ st, ∃ st', for_ l body st = (Ret tt, st')
               ∧ mu st' = mu st ++ concat (map g l)
               ∧ nu st' = nu st ++ concat (map h l).
Proof.
  induction l as [|x l IH]; intros Hbody st.
  - exists st. simpl. now rewrite !app_nil_r.
  - destruct (Hbody x st) as (st1 & H1 & Hmu1 & Hnu1); [now left|].
    destruct (IH (fun y s Hy => Hbody y s (or_intror Hy)) st1)
      as (st2 & H2 & Hmu2 & Hnu2).
    exists st2. split; [|split].
    + simpl. now rewrite (bind_ret _ _ _ _ _ H1).
    + rewrite Hmu2, Hmu1. simpl. now rewrite app_assoc.
    + rewrite Hnu2, Hnu1. simpl. now rewrite app_assoc.
Qed.

(** The requests of a guarded fetch whose function does not bind [bar]:
    one with the accelerated backend, none without it. *)
Lemma guarded_fetch_spec locals url path warning st :
  existsb (String.eqb "bar") (locals ++ module_globals) = false →
  ∃ st', try_ (fetch w locals url path) (on_error warning) mret st = (Ret tt, st')
    ∧ attempts (trace st') = attempts (trace st) ++ [(url, path)]
    ∧ requests (trace st')
      = requests (trace st) ++ (if smartDlEnabled w then [(url, path)] else []).
Proof.
  intros Hbar. unfold try_.
  destruct (fetch_run w locals url path st)
    as [(disk & b & H)|[(e & b & H & He)|(Hs & _ & H)]]; rewrite H.
  - assert (smartDlEnabled w = true) as ->.
    { destruct (smartDlEnabled w) eqn:E; [reflexivity|].
      unfold fetch in H. rewrite bind_run, E in H. unfold lookup_name in H.
      rewrite Hbar in H. discriminate H. }
    eexists. split; [reflexivity|]. simpl.
    now rewrite attempts_app, requests_app.
  - assert (smartDlEnabled w = true) as ->.
    { destruct (smartDlEnabled w) eqn:E; [reflexivity|].
      unfold fetch in H. rewrite bind_run, E in H. unfold lookup_name in H.
      rewrite Hbar in H. unfold add in H. simpl in H. inversion H as [[He' Ht]].
      apply (f_equal (@length event)) in Ht. rewrite !length_app in Ht.
      simpl in Ht. lia. }
    destruct (on_error_catches warning e (add st [Try url path; Request b url path]) He)
      as (h & evs & -> & -> & Ha & Hr).
    eexists. split; [reflexivity|]. simpl.
    now rewrite !attempts_app, !requests_app, Ha, Hr, !app_nil_r.
  - rewrite Hs. simpl. eexists. split; [reflexivity|]. simpl.
    rewrite <- app_assoc, attempts_app, requests_app. simpl.
    now rewrite app_nil_r.
Qed.

(** [createFolder] always returns; it changes nothing but the disk. *)
Lemma createFolder_run path st :
  ∃ disk, createFolder path st = (Ret tt, {| fs := disk; trace := trace st |}).
Proof.
  unfold createFolder, try_, fs_update.
  destruct (makedirs (fs st) path) as [disk|e] eqn:E.
  - exists disk. reflexivity.
  - exists (fs st). unfold makedirs in E.
    destruct (fs st !! rstrip_sep path);
      [|destruct (existsb (isfile (fs st)) (ancestors (rstrip_sep path)))];
      inversion E; subst; simpl; now destruct st.
Qed.

Lemma slides_round baseURL basePath name noSlides (i : nat) st :
  ∃ st',
    (log DEBUG ("Downloading slide " +:+ str i +:+ "/" +:+ str noSlides);;
     log DEBUG (slide_url baseURL name i);;
     log DEBUG (slide_path basePath name i);;
     try_ (fetch w downloadSlides_locals (slide_url baseURL name i)
                 (slide_path basePath name i))
          (on_error ("Did not download " +:+ name +:+ "/slide-" +:+ str i +:+ ".png"))
          mret) st = (Ret tt, st')
    ∧ attempts (trace st')
      = attempts (trace st) ++ [(slide_url baseURL name i, slide_path basePath name i)]
    ∧ requests (trace st')
      = requests (trace st)
          ++ (if smartDlEnabled w
              then [(slide_url baseURL name i, slide_path basePath name i)] else []).
Proof.
  exact (guarded_fetch_spec downloadSlides_locals _ _ _ st eq_refl).
Qed.

Lemma thumbs_round baseURL basePath name (i : nat) st :
  ∃ st',
    (log DEBUG ("Download url:" +:+ TAB +:+ thumb_url baseURL name i);;
     log DEBUG ("Download path:" +:+ TAB +:+ thumb_path basePath name i);;
     try_ (fetch w downloadSlides_locals (thumb_url baseURL name i)
                 (thumb_path basePath name i))
          (on_error ("Did not download " +:+ name +:+ "/slide-" +:+ str i +:+ ".png"))
          mret) st = (Ret tt, st')
    ∧ attempts (trace st')
      = attempts (trace st) ++ [(thumb_url baseURL name i, thumb_path basePath name i)]
    ∧ requests (trace st')
      = requests (trace st)
          ++ (if smartDlEnabled w
              then [(thumb_url baseURL name i, thumb_path basePath name i)] else []).
Proof.
  exact (guarded_fetch_spec downloadSlides_locals _ _ _ st eq_refl).
Qed.

Lemma concat_singletons {A B} (f : A → B) l : concat (map (fun x => [f x]) l) = map f l.
Proof. induction l; simpl; congruence. Qed.

Lemma concat_if_singletons {A B} (b : bool) (f : A → B) l :
  concat (map (fun x => if b then [f x] else []) l) = if b then map f l else [].
Proof. destruct b; [apply concat_singletons|]. induction l; simpl; auto. Qed.

(** One element of the metadata: every slide, then every thumbnail. *)
Lemma download_element_run baseURL basePath data element st :
  expandable data element = true →
  ∃ st', download_element w baseURL basePath data element st = (Ret tt, st')
    ∧ attempts (trace st')
      = attempts (trace st) ++ spec_element_fetches baseURL basePath data element
    ∧ requests (trace st')
      = requests (trace st)
          ++ (if smartDlEnabled w
              then spec_element_fetches baseURL basePath data element else []).
Proof.
  unfold expandable, spec_element_fetches, spec_slideCount, download_element.
  destruct (py_getitem data element) as [v|] eqn:Ev; [|discriminate].
  destruct (py_len v) as [n|] eqn:En; [|discriminate].
  destruct (as_str element) as [name|] eqn:Es; [|discriminate].
  intros _.
  destruct (createFolder_run (os_path_join basePath ["presentation"; name]) st)
    as (d1 & H1).
  set (st1 := {| fs := d1; trace := trace st |}) in H1.
  set (st2 := add st1 [Log INFO ("Downloading " +:+ str n
                                 +:+ " slides for the presentation")]).
  destruct (for_acc2 (fun s => attempts (trace s)) (fun s => requests (trace s))
              (fun i => [(slide_url baseURL name i, slide_path basePath name i)])
              (fun i => if smartDlEnabled w
                        then [(slide_url baseURL name i, slide_path basePath name i)]
                        else [])
              _ (seq 1 n)
              (fun i s _ => slides_round baseURL basePath name n i s) st2)
    as (st3 & H3 & Ha3 & Hr3).
  destruct (createFolder_run
              (os_path_join basePath ["presentation"; name; "thumbnails"]) st3)
    as (d4 & H4).
  set (st4 := {| fs := d4; trace := trace st3 |}) in H4.
  set (st5 := add st4 [Log INFO ("Downloading " +:+ str n
                                 +:+ " thumbnails for the presentation")]).
  destruct (for_acc2 (fun s => attempts (trace s)) (fun s => requests (trace s))
              (fun i => [(thumb_url baseURL name i, thumb_path basePath name i)])
              (fun i => if smartDlEnabled w
                        then [(thumb_url baseURL name i, thumb_path basePath name i)]
                        else [])
              _ (seq 1 n)
              (fun i s _ => thumbs_round baseURL basePath name i s) st5)
    as (st6 & H6 & Ha6 & Hr6).
  exists st6. split; [|split].
  - mrun. rewrite En. mrun.
    rewrite (bind_ret _ _ _ _ _ H1). mrun.
    rewrite (bind_ret _ _ _ _ _ H3).
    rewrite (bind_ret _ _ _ _ _ H4). mrun.
    exact H6.
  - rewrite Ha6. unfold st5, st4, add. simpl. rewrite attempts_app. simpl.
    rewrite app_nil_r, Ha3. unfold st2, st1, add. simpl. rewrite attempts_app. simpl.
    rewrite app_nil_r, !concat_singletons, <- app_assoc. reflexivity.
  - rewrite Hr6. unfold st5, st4, add. simpl. rewrite requests_app. simpl.
    rewrite app_nil_r, Hr3. unfold st2, st1, add. simpl. rewrite requests_app. simpl.
    rewrite app_nil_r, !concat_if_singletons, <- app_assoc.
    now destruct (smartDlEnabled w).
Qed.

Lemma load_json_run path st j :
  fs st !! path = Some (File (Document j)) →
  load_json path st = (Ret (json_load j), st).
Proof.
  intros H. unfold load_json. rewrite bind_run. simpl.
  rewrite bind_run. unfold lift, read_file. rewrite H. reflexivity.
Qed.

Lemma concat_if {A B} (b : bool) (f : A → list B) l :
  concat (map (fun x => if b then f x else []) l) = if b then concat (map f l) else [].
Proof. destruct b; [reflexivity|]. induction l; simpl; auto. Qed.

(** The expander on metadata all of whose elements it can work on. *)
Lemma downloadSlides_run baseURL basePath st j n elements :
  fs st !! (basePath +:+ "/presentation_text.json") = Some (File (Document j)) →
  py_len (json_load j) = Ret n →
  py_iter (json_load j) = Ret elements →
  forallb (expandable (json_load j)) elements = true →
  ∃ st', downloadSlides w baseURL basePath st = (Ret tt, st')
    ∧ attempts (trace st')
      = attempts (trace st)
          ++ concat (map (spec_element_fetches baseURL basePath (json_load j)) elements)
    ∧ requests (trace st')
      = requests (trace st)
          ++ (if smartDlEnabled w
              then concat (map (spec_element_fetches baseURL basePath (json_load j))
                               elements)
              else []).
Proof.
  intros Hfile Hlen Hiter Hok.
  set (data := json_load j) in *.
  set (st1 := add st [Log INFO ("Downloading " +:+ str n +:+ " presentations")]).
  destruct (for_acc2 (fun s => attempts (trace s)) (fun s => requests (trace s))
              (spec_element_fetches baseURL basePath data)
              (fun x => if smartDlEnabled w
                        then spec_element_fetches baseURL basePath data x else [])
              (download_element w baseURL basePath data) elements) with (st := st1)
    as (st2 & H2 & Ha2 & Hr2).
  { intros x s Hx. apply download_element_run.
    rewrite forallb_forall in Hok. now apply Hok. }
  exists st2. split; [|split].
  - unfold downloadSlides.
    rewrite (bind_ret _ _ _ _ _ (load_json_run _ _ _ Hfile)).
    fold data. rewrite Hlen. mrun. rewrite Hiter. mrun.
    exact H2.
  - rewrite Ha2. unfold st1, add. simpl. rewrite attempts_app. simpl.
    now rewrite app_nil_r.
  - rewrite Hr2. unfold st1, add. simpl. rewrite requests_app. simpl.
    now rewrite app_nil_r, concat_if.
Qed.

Lemma spec_element_fetches_length baseURL basePath data element :
  expandable data element = true →
  length (spec_element_fetches baseURL basePath data element)
  = 2 * spec_slideCount data element.
Proof.
  unfold expandable, spec_element_fetches.
  destruct (py_getitem data element) as [v|]; [|discriminate].
  destruct (py_len v); [|discriminate].
  destruct (as_str element); [|discriminate]. intros _.
  rewrite length_app, !length_map, !length_seq. lia.
Qed.

Lemma expansion_total baseURL basePath data elements :
  forallb (expandable data) elements = true →
  length (concat (map (spec_element_fetches baseURL basePath data) elements))
  = 2 * sum_list (map (spec_slideCount data) elements).
Proof.
  induction elements as [|x l IH]; simpl; [reflexivity|].
  intros H. apply andb_prop in H as [Hx Hl].
  rewrite length_app, spec_element_fetches_length, IH by assumption. lia.
Qed.

End ExpanderFacts.

(** C4.  For the metadata document [{"e1": [t1, t2, t3]}] the expander
    returns normally and attempts exactly six fetches: the slides
    [presentation/e1/slide-1.png] to [slide-3.png] and then the thumbnails
    [presentation/e1/thumbnails/thumb-1.png] to [thumb-3.png], in that order,
    each from the remote path below the base url to the same path below the
    session folder; with the accelerated backend these are the requests
    made.  In general, for metadata whose elements all have a length, the
    attempts are those of each element in document order, and there are
    twice the sum of the slide counts of them. *)
Theorem C4_expander_fetches (w : world) (baseURL basePath : string) (st : state) :
  (∀ t1 t2 t3,
     fs st !! (basePath +:+ "/presentation_text.json")
     = Some (File (Document (JObject [("e1", JArray [t1; t2; t3])]))) →
     let six :=
       [ (baseURL +:+ "presentation/e1/slide-1.png",
          os_path_join basePath ["presentation"; "e1"; "slide-1.png"]);
         (baseURL +:+ "presentation/e1/slide-2.png",
          os_path_join basePath ["presentation"; "e1"; "slide-2.png"]);
         (baseURL +:+ "presentation/e1/slide-3.png",
          os_path_join basePath ["presentation"; "e1"; "slide-3.png"]);
         (baseURL +:+ "presentation/e1/thumbnails/thumb-1.png",
          os_path_join basePath ["presentation"; "e1"; "thumbnails"; "thumb-1.png"]);
         (baseURL +:+ "presentation/e1/thumbnails/thumb-2.png",
          os_path_join basePath ["presentation"; "e1"; "thumbnails"; "thumb-2.png"]);
         (baseURL +:+ "presentation/e1/thumbnails/thumb-3.png",
          os_path_join basePath ["presentation"; "e1"; "thumbnails"; "thumb-3.png"]) ] in
     ∃ st', downloadSlides w baseURL basePath st = (Ret tt, st')
       ∧ attempts (trace st') = attempts (trace st) ++ six
       ∧ (smartDlEnabled w = true → requests (trace st') = requests (trace st) ++ six))
  ∧ (∀ j n elements,
       fs st !! (basePath +:+ "/presentation_text.json") = Some (File (Document j)) →
       py_len (json_load j) = Ret n →
       py_iter (json_load j) = Ret elements →
       forallb (expandable (json_load j)) elements = true →
       ∃ st' new, downloadSlides w baseURL basePath st = (Ret tt, st')
         ∧ attempts (trace st') = attempts (trace st) ++ new
         ∧ new = concat (map (spec_element_fetches baseURL basePath (json_load j)) elements)
         ∧ length new = 2 * sum_list (map (spec_slideCount (json_load j)) elements)).
Proof.
  split.
  - intros t1 t2 t3 Hfile six.
    destruct (downloadSlides_run w baseURL basePath st _ 1 [PStr "e1"] Hfile
                eq_refl eq_refl eq_refl) as (st' & H & Ha & Hr).
    exists st'. split; [exact H|]. split.
    + exact Ha.
    + intros Hs. rewrite Hs in Hr. exact Hr.
  - intros j n elements Hfile Hlen Hiter Hok.
    destruct (downloadSlides_run w baseURL basePath st j n elements Hfile Hlen Hiter Hok)
      as (st' & H & Ha & _).
    exists st', (concat (map (spec_element_fetches baseURL basePath (json_load j)) elements)).
    repeat split; auto. now apply expansion_total.
Qed.

Lemma C4_expander_fetches_witness :
  let w := Example.site true in
  let st := Example.start (Example.with_metadata (Document Example.doc)) in
  ∃ st', downloadSlides w Example.baseURL Example.session_dir st = (Ret tt, st')
    ∧ length (attempts (trace st')) = 6
    ∧ requests (trace st') = attempts (trace st').
Proof.
  intros w st.
  destruct (C4_expander_fetches w Example.baseURL Example.session_dir st) as [Hsix Hgen].
  destruct (Hsix (JString "a") (JString "b") (JString "c") eq_refl)
    as (st' & H & Ha & Hr).
  destruct (Hgen Example.doc 1 [PStr "e1"] eq_refl eq_refl eq_refl eq_refl)
    as (st2 & new & H2 & _ & _ & Hlen).
  exists st'. split; [exact H|]. split.
  - rewrite Ha. reflexivity.
  - rewrite Ha, (Hr eq_refl). reflexivity.
Defined.

(** ** When the expander raises *)

Section ExpanderFailure.

Variable w : world.








End ExpanderFailure.



(** ** The resolver *)

Section ResolverFacts.

Variable w : world.

(** Without a match the run stops at once. *)
Lemma downloadScript_no_match inputURL meetingNameWanted st :
  Re.search session_re inputURL = None →
  downloadScript w inputURL meetingNameWanted st
  = (Raise (SystemExit 1), add st [Log ERROR "Meeting ID could not be found in the url."]).
Proof. intros H. unfold downloadScript. rewrite H. reflexivity. Qed.

(** With a match the two fields are logged, then the marker decides between
    doing nothing and the download. *)
Lemma downloadScript_match inputURL meetingNameWanted st m :
  Re.search session_re inputURL = Some m →
  let meetingId := shown (Re.group m 2) in
  let folderPath := folderPath_of w meetingNameWanted meetingId in
  let st0 := add st [Log INFO ("Detected bbb version:" +:+ TAB +:+ shown (Re.group m 1));
                     Log INFO ("Detected meeting id:" +:+ TAB +:+ meetingId)] in
  downloadScript w inputURL meetingNameWanted st
  = if isfile (fs st) (sentinel_path folderPath)
    then log INFO "Meeting is already downloaded." st0
    else download w (baseURL_of w inputURL meetingId) folderPath st0.
Proof.
  intros H meetingId folderPath st0. unfold downloadScript. rewrite H.
  change (Nat.eqb (length (Re.groups session_re_groups m)) 2) with true.
  cbv iota. rewrite log_bind by discriminate. cbv beta.
  rewrite log_bind by discriminate. cbv beta.
  rewrite log_debug_bind. cbv beta. rewrite log_debug_bind. cbv beta.
  rewrite bind_run. cbn [get_fs]. cbv iota beta.
  unfold add. cbn [fs trace]. rewrite <- app_assoc.
  subst st0 folderPath meetingId. unfold add.
  now destruct (isfile (fs st) _).
Qed.

Lemma endswith_sep_app x y :
  y ≠ EmptyString → endswith_sep (x +:+ y) = endswith_sep y.
Proof.
  intros Hy. induction x as [|c x IH]; [reflexivity|].
  cbn [String.append]. simpl. rewrite IH.
  destruct (x +:+ y) eqn:E; [|reflexivity].
  destruct x; simpl in E; [contradiction|discriminate].
Qed.

Lemma join2_shape a b :
  b ≠ EmptyString → startswith_sep b = false → endswith_sep b = false →
  join2 a b ≠ EmptyString ∧ endswith_sep (join2 a b) = false.
Proof.
  intros Hb Hs He. unfold join2. rewrite Hs.
  destruct (String.eqb a "" || endswith_sep a)%bool.
  - split.
    + destruct a; [exact Hb|discriminate].
    + now rewrite endswith_sep_app.
  - split.
    + destruct a; discriminate.
    + rewrite endswith_sep_app by (destruct b; discriminate).
      destruct b as [|c b]; [contradiction|].
      change ("/" +:+ String c b) with (String "/" (String c b)).
      exact He.
Qed.

(** The meetings root is never empty and never ends with a separator. *)
Lemma meetings_root_shape :
  downloadedMeetingsFolderPath w ≠ EmptyString
  ∧ endswith_sep (downloadedMeetingsFolderPath w) = false.
Proof. apply join2_shape; [discriminate|reflexivity|reflexivity]. Qed.

(** Joining a relative name under the meetings root. *)
Lemma join_under_root n :
  startswith_sep n = false →
  os_path_join (SCRIPT_DIR w) [DOWNLOADED_MEETINGS_FOLDER; n]
  = downloadedMeetingsFolderPath w +:+ "/" +:+ n.
Proof.
  intros Hn. destruct meetings_root_shape as [Hne Hend].
  unfold os_path_join in *. cbn [fold_left] in *.
  unfold downloadedMeetingsFolderPath, os_path_join in *. cbn [fold_left] in *.
  set (root := join2 (SCRIPT_DIR w) DOWNLOADED_MEETINGS_FOLDER) in *.
  unfold join2 at 1. rewrite Hn, Hend.
  destruct (String.eqb root "") eqn:E; [apply String.eqb_eq in E; contradiction|].
  reflexivity.
Qed.

(** A name that starts with the separator is taken as it is. *)
Lemma join_absolute n :
  startswith_sep n = true →
  os_path_join (SCRIPT_DIR w) [DOWNLOADED_MEETINGS_FOLDER; n] = n.
Proof.
  intros Hn. unfold os_path_join. cbn [fold_left]. unfold join2 at 1. now rewrite Hn.
Qed.

Lemma meeting_id_relative l :
  is_meeting_id l → startswith_sep (string_of_list_ascii l) = false.
Proof.
  intros (h & d & -> & Hh & Hhex & _).
  destruct h as [|c h]; [discriminate Hh|].
  inversion Hhex as [|? ? Hc _]; subst. simpl.
  destruct (Ascii.eqb c "/") eqn:E; [|reflexivity].
  apply Ascii.eqb_eq in E. subst c. discriminate Hc.
Qed.

End ResolverFacts.



(** ** Provisioning and the completion marker *)

Section PipelineFacts.

Variable w : world.

Lemma isfile_insert_dir (disk : gmap string node) a p :
  isfile disk a = false → isfile (<[a := Dir]> disk) p = isfile disk p.
Proof.
  intros Ha. unfold isfile in *. destruct (decide (a = p)) as [->|Hne].
  - rewrite lookup_insert_eq. exact (eq_sym Ha).
  - now rewrite lookup_insert_ne.
Qed.

Lemma isfile_insert_dirs (disk : gmap string node) l :
  (∀ a, In a l → isfile disk a = false) →
  ∀ p, isfile (foldr (fun a m => <[a := Dir]> m) disk l) p = isfile disk p.
Proof.
  induction l as [|a l IH]; intros Hl p; [reflexivity|].
  simpl. rewrite isfile_insert_dir.
  - apply IH. intros b Hb. apply Hl. now right.
  - rewrite IH; [apply Hl; now left|]. intros b Hb. apply Hl. now right.
Qed.

(** [os.makedirs] makes directories only: what is a regular file stays one,
    and nothing becomes one. *)
Lemma makedirs_isfile (disk disk' : gmap string node) path :
  makedirs disk path = Ret disk' → ∀ p, isfile disk' p = isfile disk p.
Proof.
  unfold makedirs. destruct (disk !! rstrip_sep path) eqn:Ep; [discriminate|].
  destruct (existsb (isfile disk) (ancestors (rstrip_sep path))) eqn:Ea; [discriminate|].
  intros H. inversion H; subst. apply isfile_insert_dirs.
  intros a Ha. apply in_app_or in Ha as [Ha|[<-|[]]].
  - destruct (isfile disk a) eqn:E; [|reflexivity].
    assert (existsb (isfile disk) (ancestors (rstrip_sep path)) = true) as Hex
      by (apply existsb_exists; eauto).
    rewrite Hex in Ea. discriminate Ea.
  - unfold isfile. now rewrite Ep.
Qed.

Lemma createFolder_isfile path st :
  ∃ disk, createFolder path st = (Ret tt, {| fs := disk; trace := trace st |})
    ∧ ∀ p, isfile disk p = isfile (fs st) p.
Proof.
  unfold createFolder, try_, fs_update.
  destruct (makedirs (fs st) path) as [disk|e] eqn:E.
  - exists disk. split; [reflexivity|]. eapply makedirs_isfile, E.
  - exists (fs st). split; [|reflexivity]. unfold makedirs in E.
    destruct (fs st !! rstrip_sep path);
      [|destruct (existsb (isfile (fs st)) (ancestors (rstrip_sep path)))];
      inversion E; subst; simpl; now destruct st.
Qed.

(** Provisioning always returns; it logs, makes directories, and leaves the
    regular files as they are. *)
Lemma prepare_run folderPath st :
  ∃ disk evs, prepare w folderPath st
              = (Ret tt, {| fs := disk; trace := trace st ++ evs |})
    ∧ attempts evs = [] ∧ requests evs = []
    ∧ ∀ p, isfile disk p = isfile (fs st) p.
Proof.
  unfold prepare. rewrite log_bind by discriminate. cbv beta.
  set (st0 := add st _).
  destruct (for_preserve
              (fun s => trace s = trace st0 ∧ ∀ p, isfile (fs s) p = isfile (fs st) p)
              createFolder
              (map (fun x => os_path_join folderPath [x])
                   [""; "video"; "deskshare"; "presentation"])) with (st := st0)
    as (st1 & H1 & Ht & Hf).
  { intros x s _ [Hs Hfs]. destruct (createFolder_isfile x s) as (disk & H & Hd).
    eexists. split; [exact H|]. cbn [fs trace]. split; [exact Hs|].
    intros p. now rewrite Hd. }
  { split; reflexivity. }
  rewrite (bind_ret _ _ _ _ _ H1).
  destruct (progressist_installed w).
  - exists (fs st1), [Log INFO "Folder already created but not everything was downloaded. Retrying."].
    split; [|auto]. cbn [mret M_ret]. f_equal. destruct st1 as [d t]. cbn [fs trace] in *.
    now rewrite Ht.
  - eexists (fs st1), [Log INFO _; Log WARNING _].
    split; [|auto]. rewrite log_run by discriminate. rewrite Ht.
    unfold st0, add. cbn [fs trace]. now rewrite <- app_assoc.
Qed.

Lemma write_file_returns disk path c :
  write_file disk path c
  = if writable disk path then Ret (<[path := File c]> disk)
    else Raise (if isdir disk path then IsADirectoryError path
                else FileNotFoundError path).
Proof.
  unfold write_file, writable.
  destruct (isdir disk path); [reflexivity|]. cbn [negb andb].
  destruct (match parent path with Some d => isdir disk d | None => true end); reflexivity.
Qed.

(** The last two steps: the marker is created exactly when the player can
    be copied and the marker file can be created. *)
Lemma finish_run folderPath st :
  finish w folderPath st
  = match copy_tree (fs st) (os_path_join (SCRIPT_DIR w) ["player23"]) folderPath with
    | Ret disk =>
        if writable disk (sentinel_path folderPath)
        then (Ret tt, {| fs := <[sentinel_path folderPath := File (Bytes "")]> disk;
                         trace := trace st |})
        else (Raise (if isdir disk (sentinel_path folderPath)
                     then IsADirectoryError (sentinel_path folderPath)
                     else FileNotFoundError (sentinel_path folderPath)),
              {| fs := disk; trace := trace st |})
    | Raise e => (Raise e, st)
    end.
Proof.
  unfold finish. rewrite bind_run. unfold fs_update at 1.
  destruct (copy_tree (fs st) _ folderPath) as [disk|e]; [|reflexivity].
  unfold fs_update. cbn [fs trace]. rewrite write_file_returns.
  destruct (writable disk (sentinel_path folderPath)); reflexivity.
Qed.

Lemma finish_marks folderPath st st' :
  finish w folderPath st = (Ret tt, st') →
  isfile (fs st') (sentinel_path folderPath) = true.
Proof.
  rewrite finish_run.
  destruct (copy_tree (fs st) _ folderPath) as [disk|e]; [|discriminate].
  destruct (writable disk (sentinel_path folderPath)); [|discriminate].
  intros H. inversion H; subst. cbn [fs]. unfold isfile.
  now rewrite lookup_insert_eq.
Qed.

(** The download, stage by stage. *)
Lemma download_run baseURL folderPath st :
  let st1 := snd (prepare w folderPath st) in
  let manifest := downloadFiles w baseURL folderPath st1 in
  let expansion := downloadSlides w baseURL folderPath (snd manifest) in
  download w baseURL folderPath st
  = match fst manifest with
    | Ret _ =>
        match fst expansion with
        | Ret _ => finish w folderPath (snd expansion)
        | Raise e => (Raise e, snd expansion)
        end
    | Raise e => (Raise e, snd manifest)
    end.
Proof.
  intros st1 manifest expansion. unfold download.
  destruct (prepare_run folderPath st) as (disk & evs & Hp & _).
  rewrite (bind_ret _ _ _ _ _ Hp).
  assert (st1 = {| fs := disk; trace := trace st ++ evs |}) as Hst1
    by (unfold st1; now rewrite Hp).
  rewrite <- Hst1. rewrite bind_run. fold manifest.
  destruct manifest as [[[]|e] st2] eqn:Em; [|reflexivity].
  cbn [fst snd] in *. rewrite bind_run. fold expansion.
  destruct expansion as [[[]|e] st3]; reflexivity.
Qed.

Lemma download_marks baseURL folderPath st st' :
  download w baseURL folderPath st = (Ret tt, st') →
  isfile (fs st') (sentinel_path folderPath) = true.
Proof.
  rewrite download_run.
  destruct (fst (downloadFiles _ _ _ _)); [|discriminate].
  destruct (fst (downloadSlides _ _ _ _)); [|discriminate].
  apply finish_marks.
Qed.

End PipelineFacts.

(** C6.  When the folder a url and a name resolve to already holds the
    completion marker, [downloadScript] returns normally having attempted no
    fetch and made no request, and the disk is unchanged.  Hence a run made
    again after a run that returned normally requests nothing and changes
    nothing. *)
Theorem C6_short_circuit (w : world) (inputURL : string)
  (meetingNameWanted : option string) (st : state) :
  (∀ m, Re.search session_re inputURL = Some m →
     isfile (fs st)
       (sentinel_path (folderPath_of w meetingNameWanted (shown (Re.group m 2)))) = true →
     ∃ st', downloadScript w inputURL meetingNameWanted st = (Ret tt, st')
       ∧ fs st' = fs st
       ∧ attempts (trace st') = attempts (trace st)
       ∧ requests (trace st') = requests (trace st))
  ∧ (∀ st1, downloadScript w inputURL meetingNameWanted st = (Ret tt, st1) →
       ∃ st2, downloadScript w inputURL meetingNameWanted st1 = (Ret tt, st2)
         ∧ fs st2 = fs st1
         ∧ attempts (trace st2) = attempts (trace st1)
         ∧ requests (trace st2) = requests (trace st1)).
Proof.
  assert (Hskip : ∀ s m, Re.search session_re inputURL = Some m →
     isfile (fs s)
       (sentinel_path (folderPath_of w meetingNameWanted (shown (Re.group m 2)))) = true →
     ∃ st', downloadScript w inputURL meetingNameWanted s = (Ret tt, st')
       ∧ fs st' = fs s
       ∧ attempts (trace st') = attempts (trace s)
       ∧ requests (trace st') = requests (trace s)).
  { intros s m Hm Hfile. rewrite (downloadScript_match w _ _ _ _ Hm). cbv zeta.
    rewrite Hfile, log_run by discriminate.
    eexists. split; [reflexivity|]. unfold add. cbn [fs trace].
    rewrite !attempts_app, !requests_app. simpl. now rewrite !app_nil_r. }
  split; [apply Hskip|].
  intros st1 Hrun.
  destruct (Re.search session_re inputURL) as [m|] eqn:Hm.
  - apply (Hskip st1 m eq_refl).
    rewrite (downloadScript_match w _ _ _ _ Hm) in Hrun. cbv zeta in Hrun.
    destruct (isfile (fs st) _) eqn:Hfile.
    + rewrite log_run in Hrun by discriminate. inversion Hrun; subst. exact Hfile.
    + eapply download_marks, Hrun.
  - rewrite (downloadScript_no_match w _ _ _ Hm) in Hrun. discriminate Hrun.
Qed.

Lemma C6_short_circuit_witness :
  let w := Example.site true in
  let st := Example.start Example.installed in
  ∃ st1 st2,
    downloadScript w Example.url (Some "lecture") st = (Ret tt, st1)
    ∧ downloadScript w Example.url (Some "lecture") st1 = (Ret tt, st2)
    ∧ fs st2 = fs st1
    ∧ requests (trace st2) = requests (trace st1).
Proof.
  intros w st.
  destruct (downloadScript w Example.url (Some "lecture") st) as [[[]|e] st1] eqn:E;
    [|vm_compute in E; discriminate E].
  destruct (C6_short_circuit w Example.url (Some "lecture") st) as [_ H].
  destruct (H st1 E) as (st2 & H2 & Hfs & _ & Hreq).
  exists st1, st2. auto.
Defined.

(** C8, as amended.  When the pattern is found, [downloadScript] goes on with
    the remote base url [scheme://netloc/presentation/<sessionId>/], scheme
    and netloc being those of [urlparse], and with the local folder
    [<meetingsRoot>/<name>] when a name is supplied that does not start with
    the separator, and [<meetingsRoot>/<sessionId>] when no name or the empty
    name is supplied; a supplied name that starts with the separator is the
    local folder as it is. *)
Theorem C8_resolved_locations (w : world) (inputURL : string)
  (meetingNameWanted : option string) (st : state) (m : Re.match_object) :
  Re.search session_re inputURL = Some m →
  let sessionId := shown (Re.group m 2) in
  let remoteBaseURL := baseURL_of w inputURL sessionId in
  let localDir := folderPath_of w meetingNameWanted sessionId in
  let meetingsRoot := downloadedMeetingsFolderPath w in
  remoteBaseURL
  = urlparse_scheme w inputURL +:+ "://" +:+ urlparse_netloc w inputURL
      +:+ "/presentation/" +:+ sessionId +:+ "/"
  ∧ (∀ name, meetingNameWanted = Some name → name ≠ EmptyString →
       startswith_sep name = false → localDir = meetingsRoot +:+ "/" +:+ name)
  ∧ (∀ name, meetingNameWanted = Some name → startswith_sep name = true →
       localDir = name)
  ∧ (truthy meetingNameWanted = false → localDir = meetingsRoot +:+ "/" +:+ sessionId)
  ∧ (isfile (fs st) (sentinel_path localDir) = false →
     downloadScript w inputURL meetingNameWanted st
     = download w remoteBaseURL localDir
         (add st [Log INFO ("Detected bbb version:" +:+ TAB +:+ shown (Re.group m 1));
                  Log INFO ("Detected meeting id:" +:+ TAB +:+ sessionId)])).
Proof.
  intros Hm sessionId remoteBaseURL localDir meetingsRoot.
  split; [|split; [|split; [|split]]].
  - reflexivity.
  - intros name -> Hne Hrel. unfold localDir, folderPath_of.
    destruct name as [|c name]; [contradiction|]. cbn [truthy default].
    now apply join_under_root.
  - intros name -> Habs. unfold localDir, folderPath_of.
    destruct name as [|c name]; [discriminate Habs|]. cbn [truthy default].
    now apply join_absolute.
  - intros Hno. unfold localDir, folderPath_of. rewrite Hno.
    apply join_under_root.
    destruct (session_re_group2 _ _ Hm) as (l & Hg & Hl).
    unfold sessionId. rewrite Hg. cbn [shown default]. now apply meeting_id_relative.
  - intros Hfile. rewrite (downloadScript_match w _ _ _ _ Hm). cbv zeta.
    fold sessionId. fold localDir. now rewrite Hfile.
Qed.

Lemma C8_resolved_locations_witness :
  let w := Example.site true in
  baseURL_of w Example.url Example.meetingId
  = "https://bbb.example.com/presentation/" +:+ Example.meetingId +:+ "/"
  ∧ folderPath_of w (Some "lecture") Example.meetingId
    = "/opt/bbb/downloadedMeetings/lecture"
  ∧ folderPath_of w None Example.meetingId
    = "/opt/bbb/downloadedMeetings/" +:+ Example.meetingId.
Proof.
  intros w.
  destruct (Re.search session_re Example.url) as [m|] eqn:E; [|discriminate E].
  assert (Hid : shown (Re.group m 2) = Example.meetingId).
  { vm_compute in E. inversion E; subst m. reflexivity. }
  destruct (C8_resolved_locations w Example.url (Some "lecture")
              (Example.start Example.installed) m E) as (Hb & Hn & _ & _ & _).
  destruct (C8_resolved_locations w Example.url None
              (Example.start Example.installed) m E) as (_ & _ & _ & Hi & _).
  cbv zeta in Hb, Hn, Hi. rewrite Hid in Hb, Hn, Hi.
  split; [exact Hb|]. split.
  - exact (Hn "lecture" eq_refl ltac:(discriminate) eq_refl).
  - exact (Hi eq_refl).
Defined.

(** C8, the claim as stated fails.  With the supplied name [/tmp/x] the local
    folder is [/tmp/x] itself, which is not the meetings root followed by the
    separator and the name. *)
Lemma C8_absolute_name_leaves_root :
  let w := Example.site true in
  Re.search session_re Example.url ≠ None
  ∧ truthy (Some "/tmp/x") = true
  ∧ folderPath_of w (Some "/tmp/x") Example.meetingId = "/tmp/x"
  ∧ downloadedMeetingsFolderPath w +:+ "/" +:+ "/tmp/x"
    = "/opt/bbb/downloadedMeetings//tmp/x"
  ∧ folderPath_of w (Some "/tmp/x") Example.meetingId
    ≠ downloadedMeetingsFolderPath w +:+ "/" +:+ "/tmp/x".
Proof.
  intros w. repeat split; try reflexivity; vm_compute; discriminate.
Qed.




(** ** Computations that make no request *)

Section QuietFacts.

Lemma quiet_ret {A} (a : A) : quiet (mret a).
Proof. intros st. reflexivity. Qed.





Lemma quiet_log lvl msg : quiet (log lvl msg).
Proof.
  intros st. unfold log. destruct (Nat.leb _ _); [|reflexivity].
  cbn. rewrite requests_app. simpl. now rewrite app_nil_r.
Qed.

Lemma quiet_log_exception msg e : quiet (log_exception msg e).
Proof. intros st. cbn. rewrite requests_app. simpl. now rewrite app_nil_r. Qed.




Lemma quiet_on_error warning e h : on_error warning e = Some h → quiet h.
Proof.
  destruct e; simpl; intros H; inversion H; subst;
    try apply quiet_log_exception.
  destruct (code =? 404)%Z; [apply quiet_log|apply quiet_ret].
Qed.


End QuietFacts.

(** ** The urllib path *)

Section UrllibFacts.

Variable w : world.
Hypothesis no_smartdl : smartDlEnabled w = false.











End UrllibFacts.




(** ** The page of downloaded sessions *)

Section ListerFacts.

Variable w : world.

Lemma insert_sorted_perm x l : Permutation (insert_sorted x l) (x :: l).
Proof.
  induction l as [|y l IH]; simpl; [reflexivity|].
  destruct (String.leb x y); [reflexivity|].
  rewrite IH. apply perm_swap.
Qed.

Lemma sorted_perm l : Permutation (sorted l) l.
Proof.
  induction l as [|x l IH]; simpl; [reflexivity|].
  rewrite insert_sorted_perm. now constructor.
Qed.

Lemma insert_sorted_hd x a l :
  leb_str a x → HdRel leb_str a l → HdRel leb_str a (insert_sorted x l).
Proof.
  intros Hax Hl. destruct l as [|y l]; simpl.
  - now constructor.
  - destruct (String.leb x y); constructor; [exact Hax|].
    now apply HdRel_inv in Hl.
Qed.

Lemma insert_sorted_sorted x l :
  Sorted leb_str l → Sorted leb_str (insert_sorted x l).
Proof.
  induction l as [|y l IH]; intros Hl; simpl.
  - repeat constructor.
  - apply Sorted_inv in Hl as [Hs Hh].
    destruct (String.leb x y) eqn:E.
    + constructor; [now constructor|]. now constructor.
    + constructor; [now apply IH|].
      apply insert_sorted_hd; [|exact Hh].
      destruct (String.leb_total x y) as [H|H]; [congruence|exact H].
Qed.

(** [sorted] orders by code point and keeps what it is given. *)
Lemma sorted_sorted l : Sorted leb_str (sorted l).
Proof.
  induction l as [|x l IH]; simpl; [constructor|]. now apply insert_sorted_sorted.
Qed.

(** What [hello] hands to the template. *)
Lemma hello_result message st :
  fst (hello w message st)
  = match session_folders w (fs st) with
    | Ret folders => Ret (map (meetingLink w (fs st)) folders, message)
    | Raise e => Raise e
    end.
Proof.
  unfold hello, session_folders. rewrite bind_run. cbn [get_fs]. cbv beta iota.
  rewrite bind_run. unfold lift at 1.
  destruct (listdir (fs st) (downloadedMeetingsFolderPath w)) as [names|e];
    [|reflexivity].
  cbv beta iota. rewrite bind_run.
  destruct (Nat.eqb (length (meetingFolders_of w (fs st) names)) 0).
  - rewrite log_run by discriminate. reflexivity.
  - reflexivity.
Qed.

Lemma meetingLink_name disk m0 : snd (meetingLink w disk m0) = m0.
Proof. unfold meetingLink. now destruct (has_player23 w disk m0). Qed.

End ListerFacts.

(** C9, as amended.  The page lists the directories under the meetings root
    by name, in lexicographic order, and what it shows for a session depends,
    besides the name, only on whether the session folder holds both
    [index.html] and [asset-manifest.json] (the 2.3 player); the completion
    marker is not consulted: two disks with the same session folders and the
    same player files give the same page. *)
Theorem C9_lister_inputs (w : world) (message : string) :
  (∀ st names,
     listdir (fs st) (downloadedMeetingsFolderPath w) = Ret names →
     ∃ links, fst (hello w message st) = Ret (links, message)
       ∧ Sorted leb_str (map snd links)
       ∧ (∀ m, In m (map snd links)
               ↔ In m names
                 ∧ isdir (fs st) (os_path_join (downloadedMeetingsFolderPath w) [m]) = true)
       ∧ links = map (meetingLink w (fs st)) (map snd links))
  ∧ (∀ st1 st2 folders,
       session_folders w (fs st1) = Ret folders →
       session_folders w (fs st2) = Ret folders →
       (∀ m, In m folders → has_player23 w (fs st1) m = has_player23 w (fs st2) m) →
       fst (hello w message st1) = fst (hello w message st2)).
Proof.
  split.
  - intros st names Hl.
    exists (map (meetingLink w (fs st)) (meetingFolders_of w (fs st) names)).
    assert (Hnames : map snd (map (meetingLink w (fs st)) (meetingFolders_of w (fs st) names))
                     = meetingFolders_of w (fs st) names).
    { rewrite map_map. rewrite <- (map_id (meetingFolders_of w (fs st) names)) at 2.
      apply map_ext. intros m. apply meetingLink_name. }
    rewrite Hnames. split; [|split; [|split]].
    + rewrite hello_result. unfold session_folders. now rewrite Hl.
    + apply sorted_sorted.
    + intros m. unfold meetingFolders_of.
      assert (Hs : In m (sorted (filter
                     (fun folder =>
                        isdir (fs st) (os_path_join (downloadedMeetingsFolderPath w) [folder])
                        = true) names))
                   ↔ In m (filter
                     (fun folder =>
                        isdir (fs st) (os_path_join (downloadedMeetingsFolderPath w) [folder])
                        = true) names)).
      { split; apply Permutation_in; [|symmetry]; apply sorted_perm. }
      rewrite Hs, <- !list_elem_of_In, list_elem_of_filter. tauto.
    + reflexivity.
  - intros st1 st2 folders H1 H2 Hp.
    rewrite !hello_result, H1, H2. f_equal. f_equal.
    apply map_ext_in. intros m Hm. unfold meetingLink. now rewrite (Hp m Hm).
Qed.

Lemma C9_lister_inputs_witness :
  let w := Example.site true in
  fst (hello w "" (Example.start Example.listing_b))
  = fst (hello w "" (Example.start Example.listing_c))
  ∧ fst (hello w "" (Example.start Example.listing_b))
    = Ret ([("/downloadedMeetings/m/player/playback.html", "m")], "").
Proof.
  intros w.
  destruct (C9_lister_inputs w "") as [Hlist Hsame].
  assert (Hb : session_folders w (fs (Example.start Example.listing_b)) = Ret ["m"])
    by (vm_compute; reflexivity).
  assert (Hc : session_folders w (fs (Example.start Example.listing_c)) = Ret ["m"])
    by (vm_compute; reflexivity).
  split.
  - apply (Hsame _ _ ["m"] Hb Hc).
    intros m [<-|[]]. vm_compute. reflexivity.
  - vm_compute. reflexivity.
Defined.

(** C9, the claim as stated fails.  Two disks with the same session folder
    [m], neither marked complete, give different pages, because only one
    holds the player files: the page uses a fact other than the two of the
    claim.  And a third disk, which differs from the second only by the
    marker in [m], gives the same page as the second: the marker is not
    used. *)
Lemma C9_page_ignores_marker :
  let w := Example.site true in
  let page disk := fst (hello w "" (Example.start disk)) in
  session_folders w Example.listing_a = Ret ["m"]
  ∧ session_folders w Example.listing_b = Ret ["m"]
  ∧ session_folders w Example.listing_c = Ret ["m"]
  ∧ has_sentinel w Example.listing_a "m" = false
  ∧ has_sentinel w Example.listing_b "m" = false
  ∧ has_sentinel w Example.listing_c "m" = true
  ∧ page Example.listing_a = Ret ([("/downloadedMeetings/m/index.html", "m")], "")
  ∧ page Example.listing_b = Ret ([("/downloadedMeetings/m/player/playback.html", "m")], "")
  ∧ page Example.listing_a ≠ page Example.listing_b
  ∧ page Example.listing_c = page Example.listing_b.
Proof.
  intros w page. repeat split; try (vm_compute; reflexivity).
  vm_compute. discriminate.
Qed.

(** ** Directory provisioning *)

Section FolderFacts.

Lemma makedirs_made (disk disk' : gmap string node) path :
  makedirs disk path = Ret disk' → isdir disk' (rstrip_sep path) = true.
Proof.
  unfold makedirs. destruct (disk !! rstrip_sep path) eqn:Ep; [discriminate|].
  destruct (existsb (isfile disk) (ancestors (rstrip_sep path))); [discriminate|].
  intros H. inversion H; subst. rewrite foldr_app. simpl.
  generalize (ancestors (rstrip_sep path)) as l.
  induction l as [|a l IH]; simpl; unfold isdir in *.
  - now rewrite lookup_insert_eq.
  - destruct (decide (a = rstrip_sep path)) as [->|Hne].
    + now rewrite lookup_insert_eq.
    + now rewrite lookup_insert_ne.
Qed.



(** What [createFolder] does to the disk, whether [os.makedirs] raised or
    not. *)
Lemma createFolder_disk path st :
  createFolder path st
  = (Ret tt, {| fs := match makedirs (fs st) path with
                      | Ret disk => disk
                      | Raise _ => fs st
                      end;
                trace := trace st |}).
Proof.
  unfold createFolder, try_, fs_update.
  destruct (makedirs (fs st) path) as [disk|e] eqn:E; [reflexivity|].
  unfold makedirs in E.
  destruct (fs st !! rstrip_sep path);
    [|destruct (existsb (isfile (fs st)) (ancestors (rstrip_sep path)))];
    inversion E; subst; simpl; now destruct st.
Qed.


End FolderFacts.


(** X2.  Provisioning a folder twice is the same as provisioning it once: the
    second call finds the state the first call left and changes nothing. *)
Theorem X2_createFolder_idempotent (path : string) (st : state) :
  createFolder path (snd (createFolder path st)) = createFolder path st.
Proof.
  rewrite !createFolder_disk. cbn [snd fs trace].
  destruct (makedirs (fs st) path) as [disk|e] eqn:E.
  - assert (makedirs disk path = Raise (FileExistsError path)) as ->; [|reflexivity].
    apply makedirs_made in E. unfold makedirs, isdir in *.
    destruct (disk !! rstrip_sep path); [reflexivity|discriminate E].
  - now rewrite E.
Qed.

Section ProvisionerFacts.





End ProvisionerFacts.



(** ** More about the session pattern *)

Section PatternFacts.

Import Re.





End PatternFacts.



(** ** The pattern accepts what it describes *)

Section PatternAccepts.

Import Re.

Lemma rep_stops {R} p lo hi g (k : list ascii → nat → option R) n s pos r :
  lo ≤ n → k s pos = Some r → ∃ r', rep p lo hi g k n s pos = Some r'.
Proof.
  intros Hlo Hk. apply Nat.leb_le in Hlo.
  destruct s as [|ch s]; simpl; rewrite Hlo, Hk; destruct g; eauto.
  destruct (if (p ch && below n hi)%bool then rep p lo hi true k (S n) s (S pos) else None);
    eauto.
Qed.

(** A quantifier matches when a run of its class within its bounds is
    followed by something the rest of the pattern matches. *)
Lemma rep_accepts {R} p lo hi g (k : list ascii → nat → option R) run :
  ∀ s' n pos,
    Forall (fun x => p x = true) run →
    lo ≤ n + length run →
    (∀ h, hi = Some h → n + length run ≤ h) →
    (∃ r, k s' (pos + length run) = Some r) →
    ∃ r, rep p lo hi g k n (run ++ s') pos = Some r.
Proof.
  induction run as [|ch run IH]; intros s' n pos Hall Hlo Hhi [r Hk].
  - simpl in *. rewrite Nat.add_0_r in *. eapply rep_stops; eauto.
  - inversion Hall as [|? ? Hch Hrun]; subst.
    destruct (IH s' (S n) (S pos) Hrun) as [r1 H1].
    + simpl in Hlo. lia.
    + intros h Hh. specialize (Hhi h Hh). simpl in Hhi. lia.
    + exists r. rewrite <- Hk. f_equal. simpl. lia.
    + assert (Hb : below n hi = true).
      { destruct hi as [h|]; [|reflexivity]. simpl. apply Nat.ltb_lt.
        specialize (Hhi h eq_refl). simpl in Hhi. lia. }
      simpl. rewrite Hch, Hb. cbn [andb]. rewrite H1.
      destruct g; [eauto|].
      destruct (if Nat.leb lo n then k (ch :: run ++ s') pos else None); eauto.
Qed.

Lemma item_accepts p lo hi g rest run s' :
  Forall (fun x => p x = true) run →
  lo ≤ length run → (∀ h, hi = Some h → length run ≤ h) →
  (∀ pos c, ∃ r, match_here rest s' pos c = Some r) →
  ∀ pos c, ∃ r, match_here (Rep p lo hi g :: rest) (run ++ s') pos c = Some r.
Proof.
  intros Hall Hlo Hhi Hrest pos c. simpl.
  apply rep_accepts; [exact Hall|simpl; lia|exact Hhi|apply Hrest].
Qed.

Lemma exactly_accepts n p rest run s' :
  Forall (fun x => p x = true) run → length run = n →
  (∀ pos c, ∃ r, match_here rest s' pos c = Some r) →
  ∀ pos c, ∃ r, match_here (exactly n p :: rest) (run ++ s') pos c = Some r.
Proof.
  intros Hall Hlen Hrest. apply item_accepts; [exact Hall|lia| |exact Hrest].
  intros h Hh. inversion Hh. lia.
Qed.

Lemma one_accepts (x : ascii) rest s' :
  (∀ pos c, ∃ r, match_here rest s' pos c = Some r) →
  ∀ pos c, ∃ r, match_here (one (is_char x) :: rest) (x :: s') pos c = Some r.
Proof.
  intros Hrest. apply (exactly_accepts 1 (is_char x) rest [x] s');
    [|reflexivity|exact Hrest].
  constructor; [|constructor]. unfold is_char. apply Ascii.eqb_refl.
Qed.

Lemma opt_accepts p rest s' :
  (∀ pos c, ∃ r, match_here rest s' pos c = Some r) →
  ∀ pos c, ∃ r, match_here (opt p :: rest) s' pos c = Some r.
Proof.
  intros Hrest. apply (item_accepts p 0 (Some 1) true rest [] s');
    [constructor|simpl; lia| |exact Hrest].
  intros h Hh. inversion Hh. simpl. lia.
Qed.

Lemma open_accepts g rest s :
  (∀ pos c, ∃ r, match_here rest s pos c = Some r) →
  ∀ pos c, ∃ r, match_here (Open g :: rest) s pos c = Some r.
Proof. intros H pos c. apply H. Qed.

Lemma close_accepts g rest s :
  (∀ pos c, ∃ r, match_here rest s pos c = Some r) →
  ∀ pos c, ∃ r, match_here (Close g :: rest) s pos c = Some r.
Proof. intros H pos c. apply H. Qed.

(** The session pattern matches at the head of a version, a slash, text
    without a newline and a session id, whatever follows. *)
Lemma session_re_accepts v1 v2 mid id post :
  v1 ≠ [] → Forall (fun x => is_digit x = true) v1 →
  v2 ≠ [] → Forall (fun x => is_digit x = true) v2 →
  Forall (fun x => x ≠ "010"%char) mid →
  is_meeting_id id →
  ∀ pos c, ∃ r,
    match_here session_re (v1 ++ "."%char :: v2 ++ "/"%char :: mid ++ id ++ post) pos c
    = Some r.
Proof.
  intros Hv1 Hd1 Hv2 Hd2 Hmid (h & d & -> & Hh & Hhex & Hd & Hdig).
  unfold session_re, meeting_id_items. cbn [app].
  assert (Hlen : ∀ l : list ascii, l ≠ [] → 1 ≤ length l)
    by (intros [|? ?] Hl; [contradiction|simpl; lia]).
  apply opt_accepts. apply open_accepts.
  apply (item_accepts is_digit 1 None true); [exact Hd1|now apply Hlen|discriminate|].
  apply one_accepts.
  apply (item_accepts is_digit 1 None true); [exact Hd2|now apply Hlen|discriminate|].
  apply close_accepts. apply one_accepts.
  apply (item_accepts is_dot 0 None false); [|lia|discriminate|].
  { eapply Forall_impl; [exact Hmid|]. intros x Hx. unfold is_dot.
    destruct (Ascii.eqb x "010") eqn:E; [|reflexivity].
    apply Ascii.eqb_eq in E. contradiction. }
  apply open_accepts.
  rewrite <- app_assoc. cbn [app].
  apply exactly_accepts; [exact Hhex|exact Hh|].
  apply one_accepts.
  apply exactly_accepts; [exact Hdig|exact Hd|].
  apply close_accepts. apply opt_accepts. intros pos c. simpl. eauto.
Qed.

(** [re.search] finds a match that exists at some offset. *)
Lemma search_from_accepts items pre :
  ∀ s' pos,
    (∃ r, match_here items s' (pos + length pre) no_caps = Some r) →
    ∃ r, search_from items (pre ++ s') pos = Some r.
Proof.
  induction pre as [|x pre IH]; intros s' pos [r Hr].
  - simpl in *. rewrite Nat.add_0_r in Hr.
    destruct s' as [|y s']; simpl; rewrite Hr; destruct r; eauto.
  - simpl. destruct (match_here items (x :: pre ++ s') pos no_caps) as [[e c]|]; [eauto|].
    apply IH. exists r. rewrite <- Hr. f_equal. simpl. lia.
Qed.

End PatternAccepts.

(** X5.  Every url that holds, anywhere, one or more digits, a dot, one or
    more digits, a slash, any text without a newline and then a session id
    (40 hexadecimal digits, a hyphen, 13 decimal digits) is accepted: the
    pattern is found in it. *)
Theorem X5_pattern_accepts (pre v1 v2 mid id post : list ascii) :
  v1 ≠ [] → Forall (fun x => Re.is_digit x = true) v1 →
  v2 ≠ [] → Forall (fun x => Re.is_digit x = true) v2 →
  Forall (fun x => x ≠ "010"%char) mid →
  is_meeting_id id →
  ∃ m, Re.search session_re
         (string_of_list_ascii
            (pre ++ v1 ++ "."%char :: v2 ++ "/"%char :: mid ++ id ++ post))
       = Some m.
Proof.
  intros Hv1 Hd1 Hv2 Hd2 Hmid Hid. unfold Re.search.
  rewrite list_ascii_of_string_of_list_ascii.
  destruct (search_from_accepts session_re pre
              (v1 ++ "."%char :: v2 ++ "/"%char :: mid ++ id ++ post) 0)
    as [[[b e] c] H].
  - apply session_re_accepts; auto.
  - rewrite H. eauto.
Qed.

Lemma X5_pattern_accepts_example :
  ∃ m, Re.search session_re
         "https://bbb.example.com/playback/presentation/2.3/0123456789abcdef0123456789abcdef01234567-1234567890123"
       = Some m.
Proof.
  apply (X5_pattern_accepts
           (list_ascii_of_string "https://bbb.example.com/playback/presentation/")
           (list_ascii_of_string "2") (list_ascii_of_string "3") []
           (list_ascii_of_string Example.meetingId) []).
  - discriminate.
  - repeat constructor.
  - discriminate.
  - repeat constructor.
  - constructor.
  - exists (list_ascii_of_string "0123456789abcdef0123456789abcdef01234567"),
           (list_ascii_of_string "1234567890123").
    split; [reflexivity|]. split; [reflexivity|]. split; [repeat constructor|].
    split; [reflexivity|repeat constructor].
Defined.

(** ** The disk under the fetch loops *)

Section StoreFacts.

Variable w : world.









End StoreFacts.

(** ** The disk after the manifest loop *)

Section ManifestDisk.

Variable w : world.





End ManifestDisk.

Section TargetFacts.

Lemma append_assoc3 (a b c : string) : (a +:+ b) +:+ c = a +:+ b +:+ c.
Proof.
  induction a as [|x a IH]; [reflexivity|].
  change (String x ((a +:+ b) +:+ c) = String x (a +:+ b +:+ c)). now rewrite IH.
Qed.

Lemma append_cancel_l (a x y : string) : a +:+ x = a +:+ y → x = y.
Proof.
  induction a as [|c a IH]; intros H; [exact H|].
  change (String c (a +:+ x) = String c (a +:+ y)) in H. inversion H. auto.
Qed.

(** Joining a relative name puts it behind a prefix that depends on the
    folder only. *)
Lemma join2_relative a :
  ∃ pre, ∀ b, startswith_sep b = false → join2 a b = pre +:+ b.
Proof.
  destruct (String.eqb a "" || endswith_sep a)%bool eqn:E.
  - exists a. intros b Hb. unfold join2. now rewrite Hb, E.
  - exists (a +:+ "/"). intros b Hb. unfold join2. rewrite Hb, E.
    symmetry. apply append_assoc3.
Qed.







End TargetFacts.

Section FoldFacts.

Variable w : world.
Variables (url target : string → string).




End FoldFacts.




(** ** Where the expander writes *)

Section ElementPaths.

Lemma join_absolute_tail a b name ps :
  startswith_sep name = true →
  os_path_join a (b :: name :: ps) = os_path_join name ps.
Proof.
  intros H. unfold os_path_join. cbn [fold_left].
  unfold join2 at 2. now rewrite H.
Qed.

End ElementPaths.

(** X8.  The key of a presentation in the metadata is joined into the local
    path as it is: for a key that starts with the separator, every slide and
    thumbnail of the element is fetched to a path below the key itself,
    whatever the session folder is. *)
Theorem X8_absolute_element (w : world) (baseURL basePath : string)
    (data element : pyval) (name : string) (st : state) :
  expandable data element = true →
  as_str element = Ret name →
  startswith_sep name = true →
  ∃ st', download_element w baseURL basePath data element st = (Ret tt, st')
    ∧ attempts (trace st')
      = attempts (trace st)
          ++ map (fun i => (slide_url baseURL name i,
                            os_path_join name ["slide-" +:+ str i +:+ ".png"]))
                 (seq 1 (spec_slideCount data element))
          ++ map (fun i => (thumb_url baseURL name i,
                            os_path_join name ["thumbnails"; "thumb-" +:+ str i +:+ ".png"]))
                 (seq 1 (spec_slideCount data element)).
Proof.
  intros Hex Hname Habs.
  destruct (download_element_run w baseURL basePath data element st Hex)
    as (st' & Hrun & Ha & _).
  exists st'. split; [exact Hrun|]. rewrite Ha.
  unfold spec_element_fetches. rewrite Hname. f_equal. f_equal.
  - apply map_ext. intros i. unfold slide_path.
    now rewrite (join_absolute_tail basePath "presentation" name _ Habs).
  - apply map_ext. intros i. unfold thumb_path.
    now rewrite (join_absolute_tail basePath "presentation" name _ Habs).
Qed.

Lemma X8_absolute_element_example :
  let data := PDict [("/srv/www", PList [PStr "a"])] in
  expandable data (PStr "/srv/www") = true
  ∧ as_str (PStr "/srv/www") = Ret "/srv/www"
  ∧ startswith_sep "/srv/www" = true
  ∧ ∃ st', download_element (Example.site true) Example.baseURL Example.session_dir
             data (PStr "/srv/www") (Example.start Example.provisioned) = (Ret tt, st')
      ∧ attempts (trace st')
        = [(Example.baseURL +:+ "presentation//srv/www/slide-1.png",
            "/srv/www/slide-1.png");
           (Example.baseURL +:+ "presentation//srv/www/thumbnails/thumb-1.png",
            "/srv/www/thumbnails/thumb-1.png")].
Proof.
  split; [reflexivity|]. split; [reflexivity|]. split; [reflexivity|].
  destruct (X8_absolute_element (Example.site true) Example.baseURL Example.session_dir
              (PDict [("/srv/www", PList [PStr "a"])]) (PStr "/srv/www") "/srv/www"
              (Example.start Example.provisioned) eq_refl eq_refl eq_refl)
    as (st' & Hrun & Ha).
  exists st'. split; [exact Hrun|]. rewrite Ha. vm_compute. reflexivity.
Defined.

(** ** What a directory listing holds *)

Section ListingFacts.

Lemma strip_prefix_spec p s r : strip_prefix p s = Some r ↔ s = p +:+ r.
Proof.
  revert s. induction p as [|a p IH]; intros s; simpl.
  - split; [now intros [= ->]|now intros ->].
  - destruct s as [|b s].
    + split; [discriminate|].
      change (String a p +:+ r) with (String a (p +:+ r)). discriminate.
    + change (String a p +:+ r) with (String a (p +:+ r)).
      destruct (Ascii.eqb a b) eqn:E.
      * apply Ascii.eqb_eq in E as ->. rewrite IH. split; [now intros ->|now intros [= ->]].
      * apply Ascii.eqb_neq in E. split; [discriminate|]. intros [= -> _]. contradiction.
Qed.

(** The entries of [d]: the paths one separator-free, non-empty name below
    it. *)
Lemma entry_name_spec d path n :
  entry_name d path = Some n
  ↔ path = d +:+ "/" +:+ n ∧ n ≠ "" ∧ has_sep n = false.
Proof.
  unfold entry_name. split.
  - destruct (strip_prefix (d +:+ "/") path) as [[|c r]|] eqn:E; try discriminate.
    destruct (has_sep (String c r)) eqn:Hs; [discriminate|].
    intros [= <-]. apply strip_prefix_spec in E.
    split; [|split; [discriminate|exact Hs]].
    rewrite E. clear. induction d as [|x d IH]; [reflexivity|].
    change (String x ((d +:+ "/") +:+ String c r) = String x (d +:+ "/" +:+ String c r)).
    now rewrite IH.
  - intros (-> & Hn & Hs).
    assert (E : strip_prefix (d +:+ "/") (d +:+ "/" +:+ n) = Some n).
    { apply strip_prefix_spec. clear. induction d as [|x d IH]; [reflexivity|].
      change (String x (d +:+ "/" +:+ n) = String x ((d +:+ "/") +:+ n)).
      now rewrite IH. }
    rewrite E. destruct n as [|c r]; [contradiction|]. now rewrite Hs.
Qed.

Lemma map_fmap {A B} (f : A → B) (l : list A) : map f l = f <$> l.
Proof. induction l as [|x l IH]; simpl; [reflexivity|now rewrite IH]. Qed.

(** [os.listdir] of a directory gives the names of the nodes directly in
    it, each once. *)
Lemma listdir_spec (disk : gmap string node) d names :
  listdir disk d = Ret names →
  NoDup names
  ∧ ∀ n, In n names ↔ n ≠ "" ∧ has_sep n = false ∧ is_Some (disk !! (d +:+ "/" +:+ n)).
Proof.
  unfold listdir. destruct (isdir disk d); [|destruct (isfile disk d); discriminate].
  intros [= <-]. rewrite map_fmap. split.
  - assert (Hk : NoDup ((map_to_list disk).*1)) by apply NoDup_fst_map_to_list.
    revert Hk. generalize ((map_to_list disk).*1). intros l.
    induction l as [|p l IH]; intros Hnd; simpl; [constructor|].
    apply NoDup_cons in Hnd as [Hp Hnd].
    destruct (entry_name d p) as [n|] eqn:E; simpl; [|now apply IH].
    apply NoDup_cons. split; [|now apply IH].
    intros Hin. apply list_elem_of_omap in Hin as (q & Hq & Eq).
    apply entry_name_spec in E as (-> & _). apply entry_name_spec in Eq as (-> & _).
    contradiction.
  - intros n. rewrite <- list_elem_of_In, list_elem_of_omap. split.
    + intros (p & Hp & E). apply entry_name_spec in E as (-> & Hn & Hs).
      split; [exact Hn|]. split; [exact Hs|].
      apply list_elem_of_fmap in Hp as ([k v] & Hk & Hkv). simpl in Hk. subst k.
      apply elem_of_map_to_list in Hkv. now exists v.
    + intros (Hn & Hs & [v Hv]). exists (d +:+ "/" +:+ n). split.
      * apply list_elem_of_fmap. exists (d +:+ "/" +:+ n, v). split; [reflexivity|].
        now apply elem_of_map_to_list.
      * apply entry_name_spec. auto.
Qed.

Lemma has_sep_relative n : has_sep n = false → startswith_sep n = false.
Proof.
  destruct n as [|c n]; [reflexivity|]. simpl.
  destruct (Ascii.eqb c "/"); [discriminate|reflexivity].
Qed.

End ListingFacts.

Section PageFacts.

Variable w : world.

Lemma join_root n :
  startswith_sep n = false →
  os_path_join (downloadedMeetingsFolderPath w) [n]
  = downloadedMeetingsFolderPath w +:+ "/" +:+ n.
Proof.
  intros Hn. destruct (meetings_root_shape w) as [Hne Hend].
  unfold os_path_join at 1. cbn [fold_left]. unfold join2. rewrite Hn, Hend.
  destruct (String.eqb (downloadedMeetingsFolderPath w) "") eqn:E;
    [apply String.eqb_eq in E; contradiction|].
  reflexivity.
Qed.

(** The session folders: the directories directly in the meetings root. *)
Lemma meetingFolders_spec disk names :
  listdir disk (downloadedMeetingsFolderPath w) = Ret names →
  NoDup (meetingFolders_of w disk names)
  ∧ ∀ m, In m (meetingFolders_of w disk names)
         ↔ m ≠ "" ∧ has_sep m = false
           ∧ isdir disk (downloadedMeetingsFolderPath w +:+ "/" +:+ m) = true.
Proof.
  intros Hl. destruct (listdir_spec _ _ _ Hl) as [Hnd Hin].
  unfold meetingFolders_of. split.
  - rewrite sorted_perm. now apply NoDup_filter.
  - intros m.
    assert (Hs : ∀ l, In m (sorted l) ↔ In m l).
    { intros l. split; apply Permutation_in; [|symmetry]; apply sorted_perm. }
    rewrite Hs, <- list_elem_of_In, list_elem_of_filter, list_elem_of_In, Hin.
    split.
    + intros (Hd & Hn & Hsep & _). rewrite join_root in Hd by now apply has_sep_relative.
      auto.
    + intros (Hn & Hsep & Hd). rewrite join_root by now apply has_sep_relative.
      split; [exact Hd|]. split; [exact Hn|]. split; [exact Hsep|].
      unfold isdir in Hd. destruct (disk !! _) as [v|]; [now exists v|discriminate].
Qed.

End PageFacts.

(** X9.  While the meetings root is a directory, the page handler only reads:
    it returns with the disk as it was and without any fetch, passes the
    message on as given, and lists each session once, a name being listed
    exactly when it is the name of a directory directly in the meetings
    root; it logs a warning, and nothing else, exactly when there is nothing
    to list. *)
Theorem X9_page_lists_directories (w : world) (message : string) (st : state) :
  isdir (fs st) (downloadedMeetingsFolderPath w) = true →
  ∃ links evs,
    hello w message st = (Ret (links, message), add st evs)
    ∧ attempts evs = [] ∧ requests evs = []
    ∧ NoDup (map snd links)
    ∧ (∀ m, In m (map snd links)
            ↔ m ≠ "" ∧ has_sep m = false
              ∧ isdir (fs st) (downloadedMeetingsFolderPath w +:+ "/" +:+ m) = true)
    ∧ (links = [] ↔ evs ≠ [])
    ∧ (∀ e, In e evs → ∃ msg, e = Log WARNING msg).
Proof.
  intros Hroot.
  destruct (listdir (fs st) (downloadedMeetingsFolderPath w)) as [names|e] eqn:Hl;
    [|unfold listdir in Hl; rewrite Hroot in Hl; discriminate].
  destruct (meetingFolders_spec w (fs st) names Hl) as [Hnd Hin].
  assert (Hnames : map snd (map (meetingLink w (fs st)) (meetingFolders_of w (fs st) names))
                   = meetingFolders_of w (fs st) names).
  { rewrite map_map. rewrite <- (map_id (meetingFolders_of w (fs st) names)) at 2.
    apply map_ext. intros m. apply meetingLink_name. }
  exists (map (meetingLink w (fs st)) (meetingFolders_of w (fs st) names)).
  unfold hello. rewrite bind_run. cbn [get_fs]. cbv beta iota.
  rewrite bind_run. unfold lift at 1. rewrite Hl. cbv beta iota. rewrite bind_run.
  rewrite Hnames.
  destruct (meetingFolders_of w (fs st) names) as [|m l] eqn:E.
  - cbn [length Nat.eqb]. rewrite log_run by discriminate. cbv beta iota.
    eexists [_]. split; [reflexivity|].
    split; [reflexivity|]. split; [reflexivity|]. split; [exact Hnd|].
    split; [exact Hin|]. split; [split; [discriminate|reflexivity]|].
    intros e [<-|[]]. eexists. reflexivity.
  - cbn [length Nat.eqb]. exists []. split.
    + unfold add. rewrite app_nil_r. now destruct st.
    + split; [reflexivity|]. split; [reflexivity|]. split; [exact Hnd|].
      split; [exact Hin|]. split; [|intros e []].
      split; [discriminate|]. intros H. now contradiction H.
Qed.

Lemma X9_page_lists_directories_example :
  let w := Example.site true in
  isdir Example.listing_a (downloadedMeetingsFolderPath w) = true
  ∧ ∃ links evs,
      hello w "" (Example.start Example.listing_a)
      = (Ret (links, ""), add (Example.start Example.listing_a) evs)
      ∧ NoDup (map snd links)
      ∧ (In "m" (map snd links)
         ↔ "m" ≠ "" ∧ has_sep "m" = false
           ∧ isdir Example.listing_a (downloadedMeetingsFolderPath w +:+ "/" +:+ "m") = true).
Proof.
  split; [reflexivity|].
  destruct (X9_page_lists_directories (Example.site true) ""
              (Example.start Example.listing_a) eq_refl)
    as (links & evs & Hrun & _ & _ & Hnd & Hin & _ & _).
  exists links, evs. split; [exact Hrun|]. split; [exact Hnd|]. apply Hin.
Defined.

(** ** Starting the web application *)

Section StartFacts.

Variable w : world.

(** Past the two checks, [create_app] is the upgrade loop over the session
    folders. *)
Lemma create_app_run cwd st folders :
  session_folders w (fs st) = Ret folders →
  create_app w true cwd st = for_ folders (upgrade w) st.
Proof.
  unfold session_folders. intros Hs.
  destruct (listdir (fs st) (downloadedMeetingsFolderPath w)) as [names|e] eqn:Hl;
    [|discriminate].
  injection Hs as <-.
  assert (Hroot : isdir (fs st) (downloadedMeetingsFolderPath w) = true).
  { unfold listdir in Hl. destruct (isdir (fs st) _); [reflexivity|].
    destruct (isfile (fs st) _); discriminate. }
  unfold create_app. mrun.
  rewrite bind_run. cbn [get_fs]. cbv beta iota. rewrite Hroot. mrun.
  rewrite bind_run. cbn [get_fs]. cbv beta iota.
  rewrite bind_run. unfold lift at 1. rewrite Hl. cbv beta iota.
  reflexivity.
Qed.

Lemma upgrade_current m st :
  has_player23 w (fs st) m = true → upgrade w m st = (Ret tt, st).
Proof.
  intros H. unfold upgrade. rewrite bind_run. cbn [get_fs]. cbv beta iota.
  now rewrite H.
Qed.


Lemma for_upgrade_current l st :
  (∀ m, In m l → has_player23 w (fs st) m = true) →
  for_ l (upgrade w) st = (Ret tt, st).
Proof.
  induction l as [|m l IH]; intros H; [reflexivity|].
  simpl. rewrite (bind_ret _ _ _ _ _ (upgrade_current m st (H m (or_introl eq_refl)))).
  apply IH. intros m' Hm'. apply H. now right.
Qed.


End StartFacts.

(** X10.  [create_app] refuses to start without Flask or without the
    meetings root: it logs one error and leaves with [SystemExit(1)], the
    disk as it was. *)
Theorem X10_create_app_refuses (w : world) (flask_installed : bool) (cwd : string)
    (st : state) :
  flask_installed = false ∨ isdir (fs st) (downloadedMeetingsFolderPath w) = false →
  ∃ msg, create_app w flask_installed cwd st
         = (Raise (SystemExit 1), add st [Log ERROR msg]).
Proof.
  intros H. unfold create_app. destruct flask_installed.
  - destruct H as [H|H]; [discriminate|]. mrun.
    rewrite bind_run. cbn [get_fs]. cbv beta iota. rewrite H.
    eexists. reflexivity.
  - eexists. reflexivity.
Qed.

Lemma X10_create_app_refuses_example :
  let w := Example.site true in
  (true = false ∨ isdir Example.installed (downloadedMeetingsFolderPath w) = false)
  ∧ ∃ msg, create_app w true "/opt/bbb" (Example.start Example.installed)
           = (Raise (SystemExit 1), add (Example.start Example.installed) [Log ERROR msg]).
Proof.
  split; [right; reflexivity|].
  apply (X10_create_app_refuses (Example.site true) true "/opt/bbb"
           (Example.start Example.installed)).
  right. reflexivity.
Defined.

(** X11.  When every session folder holds the 2.3 player already,
    [create_app] changes nothing and logs nothing. *)
Theorem X11_create_app_current (w : world) (cwd : string) (st : state)
    (folders : list string) :
  session_folders w (fs st) = Ret folders →
  (∀ m, In m folders → has_player23 w (fs st) m = true) →
  create_app w true cwd st = (Ret tt, st).
Proof.
  intros Hs Hall. rewrite (create_app_run w cwd st folders Hs).
  now apply for_upgrade_current.
Qed.

Lemma X11_create_app_current_example :
  let w := Example.site true in
  session_folders w Example.listing_a = Ret ["m"]
  ∧ has_player23 w Example.listing_a "m" = true
  ∧ create_app w true "/opt/bbb" (Example.start Example.listing_a)
    = (Ret tt, Example.start Example.listing_a).
Proof.
  split; [vm_compute; reflexivity|]. split; [vm_compute; reflexivity|].
  apply (X11_create_app_current (Example.site true) "/opt/bbb"
           (Example.start Example.listing_a) ["m"]).
  - vm_compute. reflexivity.
  - intros m [<-|[]]. vm_compute. reflexivity.
Defined.



(** ** The submitted form *)

Section StripFacts.

Lemma lstrip_shape s :
  lstrip s = "" ∨ ∃ c r, lstrip s = String c r ∧ isspace c = false.
Proof.
  induction s as [|c s IH]; [now left|]. simpl.
  destruct (isspace c) eqn:E; [exact IH|]. right. eauto.
Qed.

Lemma lstrip_clean c r : isspace c = false → lstrip (String c r) = String c r.
Proof. intros H. simpl. now rewrite H. Qed.

Lemma lstrip_lstrip s : lstrip (lstrip s) = lstrip s.
Proof.
  destruct (lstrip_shape s) as [->|(c & r & -> & Hc)]; [reflexivity|].
  now apply lstrip_clean.
Qed.

Lemma rstrip_cons_fix c s :
  rstrip (String c s) = String c s → rstrip s = s ∧ (s = "" → isspace c = false).
Proof.
  simpl. destruct (rstrip s) as [|a r] eqn:E.
  - destruct (isspace c); [discriminate|]. intros [= <-]. auto.
  - intros [= <-]. split; [reflexivity|discriminate].
Qed.

Lemma rstrip_rstrip s : rstrip (rstrip s) = rstrip s.
Proof.
  induction s as [|c s IH]; [reflexivity|]. simpl.
  destruct (rstrip s) as [|a r] eqn:E.
  - destruct (isspace c) eqn:Ec; [reflexivity|]. simpl. now rewrite Ec.
  - change (rstrip (String c (String a r))) with
      (match rstrip (String a r) with
       | "" => if isspace c then "" else String c ""
       | x => String c x
       end).
    now rewrite IH.
Qed.

Lemma rstrip_lstrip x : rstrip x = x → rstrip (lstrip x) = lstrip x.
Proof.
  induction x as [|c x IH]; intros H; [reflexivity|].
  destruct (rstrip_cons_fix c x H) as [Hx _].
  cbn [lstrip]. destruct (isspace c); [now apply IH|exact H].
Qed.

(** [strip] leaves no white space at either end. *)
Lemma strip_strip s : strip (strip s) = strip s.
Proof.
  unfold strip.
  rewrite (rstrip_lstrip (rstrip s)) by apply rstrip_rstrip.
  apply lstrip_lstrip.
Qed.










End StripFacts.

Section FormFacts.

Variable w : world.



(** The page handler reads, and hands the message on. *)
Lemma hello_reads message st :
  ∃ r evs, hello w message st = (r, add st evs)
    ∧ attempts evs = [] ∧ requests evs = []
    ∧ ∀ links msg, r = Ret (links, msg) → msg = message.
Proof.
  unfold hello. rewrite bind_run. cbn [get_fs]. cbv beta iota.
  rewrite bind_run. unfold lift at 1.
  destruct (listdir (fs st) (downloadedMeetingsFolderPath w)) as [names|e].
  - cbv beta iota. rewrite bind_run.
    destruct (Nat.eqb (length (meetingFolders_of w (fs st) names)) 0).
    + rewrite log_run by discriminate. cbv beta iota.
      eexists _, [_]. split; [reflexivity|]. repeat split. now intros links msg [= _ <-].
    + eexists _, []. split; [unfold add; rewrite app_nil_r; now destruct st|].
      repeat split. now intros links msg [= _ <-].
  - exists (Raise e), []. split; [unfold add; rewrite app_nil_r; now destruct st|].
    repeat split. discriminate.
Qed.

End FormFacts.







(** X16.  With an empty name, or with a name and an empty URL, the handler
    downloads nothing: it only renders the page, with its error text, the
    disk as it was; the URL field is not even looked up when the name is
    empty. *)
Theorem X16_form_empty_field (w : world) (form : list (string * string)) (st : state) :
  form_get form "meeting-name" = Ret ""
  ∨ (∃ n, form_get form "meeting-name" = Ret n)
    ∧ form_get form "meeting-url" = Ret "" →
  api_dl_meeting w form st
  = hello w "خطایی در دانلود جلسه رخ داد، لطفا مجددا تلاش نمایید." st
  ∧ ∃ r evs, api_dl_meeting w form st = (r, add st evs)
      ∧ attempts evs = [] ∧ requests evs = [].
Proof.
  intros H.
  assert (E : api_dl_meeting w form st
              = hello w "خطایی در دانلود جلسه رخ داد، لطفا مجددا تلاش نمایید." st).
  { unfold api_dl_meeting. destruct H as [Hn|[[n Hn] Hu]].
    - rewrite Hn. rewrite lift_ret_bind. cbv beta. cbn [truthy].
      rewrite bind_run. change (@mret M _ bool false st) with (Ret false, st).
      reflexivity.
    - rewrite Hn. rewrite lift_ret_bind. cbv beta.
      destruct n as [|a n]; cbn [truthy].
      + rewrite bind_run. change (@mret M _ bool false st) with (Ret false, st).
        reflexivity.
      + rewrite Hu. rewrite bind_run. rewrite lift_ret_bind. cbv beta. cbn [truthy].
        change (@mret M _ bool false st) with (Ret false, st). reflexivity. }
  split; [exact E|]. rewrite E.
  destruct (hello_reads w "خطایی در دانلود جلسه رخ داد، لطفا مجددا تلاش نمایید." st)
    as (r & evs & Hrun & Ha & Hr & _).
  exists r, evs. auto.
Qed.

Lemma X16_form_empty_field_example :
  let form := [("meeting-name", "")] in
  let st := Example.start Example.listing_a in
  form_get form "meeting-name" = Ret ""
  ∧ api_dl_meeting (Example.site true) form st
    = hello (Example.site true) "خطایی در دانلود جلسه رخ داد، لطفا مجددا تلاش نمایید." st.
Proof.
  split; [reflexivity|].
  apply (X16_form_empty_field (Example.site true) [("meeting-name", "")]
           (Example.start Example.listing_a)).
  left. reflexivity.
Defined.

(** ** Copying the player *)

Section CopyFacts.

Lemma append_cons c a b : String c a +:+ b = String c (a +:+ b).
Proof. reflexivity. Qed.

Lemma append_empty_r a : a +:+ "" = a.
Proof.
  induction a as [|c a IH]; [reflexivity|].
  change (String c (a +:+ "") = String c a). now rewrite IH.
Qed.

Lemma append_neq a b : b ≠ "" → a ≠ a +:+ b.
Proof.
  intros Hb. induction a as [|c a IH].
  - intros H. apply Hb. now symmetry.
  - rewrite append_cons. intros [= H]. now apply IH.
Qed.

Lemma has_sep_app a b : has_sep (a +:+ "/" +:+ b) = true.
Proof.
  induction a as [|c a IH]; [reflexivity|].
  rewrite append_cons. cbn [has_sep]. rewrite IH. apply orb_true_r.
Qed.

(** Two names without separator that are followed by a separator in the
    same text are the same name. *)
Lemma name_before_sep m m' a b :
  has_sep m = false → has_sep m' = false →
  m +:+ "/" +:+ a = m' +:+ "/" +:+ b → m = m' ∧ a = b.
Proof.
  revert m'. induction m as [|c m IH]; intros [|c' m'] Hm Hm' H.
  - change (String "/" a = String "/" b) in H. injection H as ->. auto.
  - change (String "/" a = String c' (m' +:+ "/" +:+ b)) in H.
    injection H as <- _. discriminate Hm'.
  - change (String c (m +:+ "/" +:+ a) = String "/" b) in H.
    injection H as -> _. discriminate Hm.
  - change (String c (m +:+ "/" +:+ a) = String c' (m' +:+ "/" +:+ b)) in H.
    injection H as -> H.
    cbn [has_sep] in Hm, Hm'. apply orb_false_elim in Hm as [_ Hm].
    apply orb_false_elim in Hm' as [_ Hm'].
    destruct (IH m' Hm Hm' H) as [-> ->]. auto.
Qed.

Variables (src dst : string).

Lemma copy_fold_other (l : list (string * node)) (base : gmap string node) k :
  (∀ rest, k ≠ dst +:+ "/" +:+ rest) →
  foldr (fun kn m =>
           match strip_prefix (src +:+ "/") (fst kn) with
           | Some rest => <[dst +:+ "/" +:+ rest := snd kn]> m
           | None => m
           end) base l !! k = base !! k.
Proof.
  intros Hk. induction l as [|[k' v] l IH]; [reflexivity|]. cbn [foldr fst snd].
  destruct (strip_prefix (src +:+ "/") k') as [rest|]; [|exact IH].
  rewrite lookup_insert_ne by (intros E; exact (Hk rest (eq_sym E))). exact IH.
Qed.

Lemma copy_fold_at (l : list (string * node)) (base : gmap string node) rest node :
  (∀ v, In ((src +:+ "/") +:+ rest, v) l → v = node) →
  In ((src +:+ "/") +:+ rest, node) l →
  foldr (fun kn m =>
           match strip_prefix (src +:+ "/") (fst kn) with
           | Some rest => <[dst +:+ "/" +:+ rest := snd kn]> m
           | None => m
           end) base l !! (dst +:+ "/" +:+ rest) = Some node.
Proof.
  induction l as [|[k v] l IH]; intros Hfun Hin; [destruct Hin|].
  cbn [foldr fst snd].
  destruct (strip_prefix (src +:+ "/") k) as [r|] eqn:E.
  - apply strip_prefix_spec in E. subst k.
    destruct (string_dec r rest) as [->|Hne].
    + rewrite lookup_insert_eq. f_equal. apply Hfun. now left.
    + rewrite lookup_insert_ne.
      * apply IH; [intros v' Hv'; apply Hfun; now right|].
        destruct Hin as [Hin|Hin]; [|exact Hin].
        injection Hin as Hin _. apply append_cancel_l in Hin. contradiction.
      * intros Eq. apply append_cancel_l in Eq. injection Eq as Eq. contradiction.
  - apply IH; [intros v' Hv'; apply Hfun; now right|].
    destruct Hin as [Hin|Hin]; [|exact Hin].
    injection Hin as Hin _. subst k.
    assert (strip_prefix (src +:+ "/") ((src +:+ "/") +:+ rest) = Some rest) as E'
      by now apply strip_prefix_spec.
    congruence.
Qed.

(** What [copy_tree] leaves: the nodes below [src] are found below [dst],
    [dst] is a directory, and everything else is as it was. *)
Lemma copy_tree_at (disk disk' : gmap string node) rest node :
  copy_tree disk src dst = Ret disk' →
  disk !! ((src +:+ "/") +:+ rest) = Some node →
  disk' !! (dst +:+ "/" +:+ rest) = Some node.
Proof.
  unfold copy_tree. destruct (negb (isdir disk src)); [discriminate|].
  destruct (isfile disk dst); [discriminate|]. intros [= <-] H.
  apply copy_fold_at.
  - intros v Hv. apply list_elem_of_In, elem_of_map_to_list in Hv. congruence.
  - now apply list_elem_of_In, elem_of_map_to_list.
Qed.

Lemma copy_tree_other (disk disk' : gmap string node) k :
  copy_tree disk src dst = Ret disk' →
  k ≠ dst → (∀ rest, k ≠ dst +:+ "/" +:+ rest) →
  disk' !! k = disk !! k.
Proof.
  unfold copy_tree. destruct (negb (isdir disk src)); [discriminate|].
  destruct (isfile disk dst); [discriminate|]. intros [= <-] Hk Hr.
  rewrite copy_fold_other by exact Hr. now rewrite lookup_insert_ne.
Qed.

Lemma copy_tree_dst (disk disk' : gmap string node) :
  copy_tree disk src dst = Ret disk' → disk' !! dst = Some Dir.
Proof.
  unfold copy_tree. destruct (negb (isdir disk src)); [discriminate|].
  destruct (isfile disk dst); [discriminate|]. intros [= <-].
  rewrite copy_fold_other; [apply lookup_insert_eq|].
  intros rest. apply append_neq. discriminate.
Qed.

Lemma copy_tree_returns (disk : gmap string node) :
  isdir disk src = true → isfile disk dst = false →
  ∃ disk', copy_tree disk src dst = Ret disk'.
Proof.
  intros Hs Hd. unfold copy_tree. rewrite Hs, Hd. cbn [negb]. eauto.
Qed.

End CopyFacts.

Section UpgradeFacts.

Variable w : world.

Lemma name_ends m : m ≠ "" → has_sep m = false → endswith_sep m = false.
Proof.
  induction m as [|c m IH]; intros Hne Hs; [contradiction|].
  cbn [has_sep] in Hs. apply orb_false_elim in Hs as [Hc Hs].
  destruct m as [|c' m]; [exact Hc|].
  change (endswith_sep (String c (String c' m))) with (endswith_sep (String c' m)).
  apply IH; [discriminate|exact Hs].
Qed.

Lemma key_split root m rest :
  (root +:+ "/" +:+ m) +:+ "/" +:+ rest = root +:+ "/" +:+ (m +:+ "/" +:+ rest).
Proof. rewrite append_assoc3. reflexivity. Qed.

Lemma session_key_inj root m m' a b :
  has_sep m = false → has_sep m' = false →
  (root +:+ "/" +:+ m) +:+ "/" +:+ a = (root +:+ "/" +:+ m') +:+ "/" +:+ b →
  m = m' ∧ a = b.
Proof.
  intros Hm Hm' H. rewrite !key_split in H. apply append_cancel_l in H.
  injection H as H. now apply name_before_sep.
Qed.

Lemma session_dir_not_below root m m' rest :
  has_sep m' = false →
  root +:+ "/" +:+ m' ≠ (root +:+ "/" +:+ m) +:+ "/" +:+ rest.
Proof.
  intros Hm' H. rewrite key_split in H. apply append_cancel_l in H.
  injection H as H. change (m' = m +:+ "/" +:+ rest) in H.
  rewrite H, has_sep_app in Hm'. discriminate.
Qed.

(** The bundled player and the meetings root sit side by side. *)
Lemma player_beside_root :
  ∃ pre, os_path_join (SCRIPT_DIR w) ["player23"] = pre +:+ "player23"
         ∧ downloadedMeetingsFolderPath w = pre +:+ "downloadedMeetings".
Proof.
  destruct (join2_relative (SCRIPT_DIR w)) as (pre & Hpre). exists pre.
  unfold downloadedMeetingsFolderPath, os_path_join. cbn [fold_left].
  split; apply Hpre; reflexivity.
Qed.

Lemma player_not_below m rest t :
  (os_path_join (SCRIPT_DIR w) ["player23"]) +:+ t
  ≠ (downloadedMeetingsFolderPath w +:+ "/" +:+ m) +:+ "/" +:+ rest.
Proof.
  destruct player_beside_root as (pre & -> & ->). intros H.
  rewrite !append_assoc3 in H. apply append_cancel_l in H. discriminate H.
Qed.

(** The two files [hello] and [create_app] look for in a session folder. *)
Lemma has_player23_paths (disk : gmap string node) m :
  m ≠ "" → has_sep m = false →
  has_player23 w disk m
  = (isfile disk ((downloadedMeetingsFolderPath w +:+ "/" +:+ m) +:+ "/" +:+ "index.html")
     && isfile disk ((downloadedMeetingsFolderPath w +:+ "/" +:+ m)
                     +:+ "/" +:+ "asset-manifest.json"))%bool.
Proof.
  intros Hne Hs. unfold has_player23.
  assert (Hj : ∀ f, startswith_sep f = false →
            os_path_join (downloadedMeetingsFolderPath w) [m; f]
            = (downloadedMeetingsFolderPath w +:+ "/" +:+ m) +:+ "/" +:+ f).
  { intros f Hf.
    change (os_path_join (downloadedMeetingsFolderPath w) [m; f])
      with (join2 (os_path_join (downloadedMeetingsFolderPath w) [m]) f).
    rewrite (join_root w m) by now apply has_sep_relative.
    unfold join2. rewrite Hf.
    rewrite endswith_sep_app by discriminate.
    destruct m as [|c m]; [contradiction|].
    change (endswith_sep ("/" +:+ String c m)) with (endswith_sep (String c m)).
    rewrite (name_ends (String c m) Hne Hs).
    destruct (downloadedMeetingsFolderPath w); reflexivity. }
  now rewrite !Hj by reflexivity.
Qed.

End UpgradeFacts.

Section UpgradeLoop.

Variable w : world.

(** One round of the loop of [create_app], with the bundled player in
    place. *)
Lemma upgrade_step m st c1 c2 :
  m ≠ "" → has_sep m = false →
  isdir (fs st) (os_path_join (SCRIPT_DIR w) ["player23"]) = true →
  fs st !! ((os_path_join (SCRIPT_DIR w) ["player23"] +:+ "/") +:+ "index.html")
  = Some (File c1) →
  fs st !! ((os_path_join (SCRIPT_DIR w) ["player23"] +:+ "/") +:+ "asset-manifest.json")
  = Some (File c2) →
  isdir (fs st) (downloadedMeetingsFolderPath w +:+ "/" +:+ m) = true →
  ∃ st1, upgrade w m st = (Ret tt, st1)
    ∧ has_player23 w (fs st1) m = true
    ∧ (∀ p, (∀ rest, p ≠ (downloadedMeetingsFolderPath w +:+ "/" +:+ m) +:+ "/" +:+ rest) →
            fs st1 !! p = fs st !! p).
Proof.
  intros Hne Hs Hsrc H1 H2 Hdst.
  unfold upgrade. rewrite bind_run. cbn [get_fs]. cbv beta iota.
  destruct (has_player23 w (fs st) m) eqn:Hp.
  - exists st. auto.
  - rewrite log_bind by discriminate. cbv beta.
    rewrite (join_root w m) by now apply has_sep_relative.
    unfold fs_update. cbn [fs add trace].
    destruct (copy_tree_returns (os_path_join (SCRIPT_DIR w) ["player23"])
                (downloadedMeetingsFolderPath w +:+ "/" +:+ m) (fs st) Hsrc)
      as (disk' & Hc).
    { unfold isdir in Hdst. unfold isfile.
      destruct (fs st !! (downloadedMeetingsFolderPath w +:+ "/" +:+ m)) as [[|]|];
        [discriminate|reflexivity|discriminate]. }
    rewrite Hc. eexists. split; [reflexivity|]. cbn [fs]. split.
    + rewrite has_player23_paths by assumption. unfold isfile.
      rewrite (copy_tree_at _ _ _ _ _ _ Hc H1), (copy_tree_at _ _ _ _ _ _ Hc H2).
      reflexivity.
    + intros p Hp'.
      destruct (string_dec p (downloadedMeetingsFolderPath w +:+ "/" +:+ m)) as [->|Hpd].
      * rewrite (copy_tree_dst _ _ _ _ Hc). unfold isdir in Hdst.
        destruct (fs st !! (downloadedMeetingsFolderPath w +:+ "/" +:+ m)) as [[|]|];
          [discriminate|reflexivity|discriminate].
      * apply (copy_tree_other _ _ _ _ _ Hc Hpd). exact Hp'.
Qed.

(** The loop over names of session folders, each a directory: it returns,
    every folder holds the player afterwards, and the disk has changed
    below these folders only. *)
Lemma for_upgrade_all c1 c2 l :
  (∀ m, In m l → m ≠ "" ∧ has_sep m = false) →
  ∀ st done,
    (∀ m, In m done → m ≠ "" ∧ has_sep m = false) →
    isdir (fs st) (os_path_join (SCRIPT_DIR w) ["player23"]) = true →
    fs st !! ((os_path_join (SCRIPT_DIR w) ["player23"] +:+ "/") +:+ "index.html")
    = Some (File c1) →
    fs st !! ((os_path_join (SCRIPT_DIR w) ["player23"] +:+ "/") +:+ "asset-manifest.json")
    = Some (File c2) →
    (∀ m, In m l → isdir (fs st) (downloadedMeetingsFolderPath w +:+ "/" +:+ m) = true) →
    (∀ m, In m done → has_player23 w (fs st) m = true) →
    ∃ st', for_ l (upgrade w) st = (Ret tt, st')
      ∧ (∀ m, In m (done ++ l) → has_player23 w (fs st') m = true)
      ∧ (∀ p, (∀ m rest, In m l →
                 p ≠ (downloadedMeetingsFolderPath w +:+ "/" +:+ m) +:+ "/" +:+ rest) →
              fs st' !! p = fs st !! p).
Proof.
  induction l as [|m l IH]; intros Hl st done Hdone Hsrc H1 H2 Hdirs Hhas.
  - exists st. split; [reflexivity|]. rewrite app_nil_r. auto.
  - destruct (Hl m (or_introl eq_refl)) as [Hne Hs].
    destruct (upgrade_step m st c1 c2 Hne Hs Hsrc H1 H2 (Hdirs m (or_introl eq_refl)))
      as (st1 & Hrun & Hm & Hframe).
    assert (Hsrc_key : ∀ t rest,
              os_path_join (SCRIPT_DIR w) ["player23"] +:+ t
              ≠ (downloadedMeetingsFolderPath w +:+ "/" +:+ m) +:+ "/" +:+ rest).
    { intros t rest. apply player_not_below. }
    destruct (IH (fun x Hx => Hl x (or_intror Hx)) st1 (done ++ [m])) as (st' & Hfor & Hall & Hfr).
    + intros x Hx. apply in_app_iff in Hx as [Hx|[<-|[]]]; auto.
    + unfold isdir. rewrite Hframe; [exact Hsrc|].
      intros rest. rewrite <- (append_empty_r (os_path_join (SCRIPT_DIR w) ["player23"])).
      apply Hsrc_key.
    + rewrite Hframe; [exact H1|]. intros rest. rewrite append_assoc3. apply Hsrc_key.
    + rewrite Hframe; [exact H2|]. intros rest. rewrite append_assoc3. apply Hsrc_key.
    + intros x Hx. unfold isdir. rewrite Hframe; [exact (Hdirs x (or_intror Hx))|].
      intros rest. apply session_dir_not_below. apply (Hl x). now right.
    + intros x Hx. apply in_app_iff in Hx as [Hx|[<-|[]]]; [|exact Hm].
      destruct (string_dec x m) as [->|Hxm]; [exact Hm|].
      destruct (Hdone x Hx) as [Hxne Hxs].
      rewrite has_player23_paths by assumption. unfold isfile.
      rewrite !Hframe.
      * specialize (Hhas x Hx). rewrite has_player23_paths in Hhas by assumption.
        exact Hhas.
      * intros rest E. destruct (session_key_inj _ _ _ _ _ Hxs Hs E) as [E' _].
        contradiction.
      * intros rest E. destruct (session_key_inj _ _ _ _ _ Hxs Hs E) as [E' _].
        contradiction.
    + exists st'. split; [|split].
      * simpl. now rewrite (bind_ret _ _ _ _ _ Hrun).
      * intros x Hx. apply Hall. rewrite <- app_assoc. exact Hx.
      * intros p Hp. rewrite Hfr by (intros x rest Hx; apply Hp; now right).
        apply Hframe. intros rest. apply Hp. now left.
Qed.

End UpgradeLoop.

(** X17.  With Flask present and the bundled player in place (a directory
    [player23] beside the meetings root that holds [index.html] and
    [asset-manifest.json]), [create_app] returns, and afterwards every
    session folder holds the 2.3 player, so that the page links each of them
    to its [index.html]; the disk has changed below the session folders
    only.  The copy is taken where it meets no node of another kind. *)
Theorem X17_create_app_upgrades (w : world) (cwd message : string) (st : state)
    (folders : list string) (c1 c2 : content) :
  let player23Folder := os_path_join (SCRIPT_DIR w) ["player23"] in
  let meetingFolder m := os_path_join (downloadedMeetingsFolderPath w) [m] in
  session_folders w (fs st) = Ret folders →
  isdir (fs st) player23Folder = true →
  fs st !! (player23Folder +:+ "/index.html") = Some (File c1) →
  fs st !! (player23Folder +:+ "/asset-manifest.json") = Some (File c2) →
  (∀ m, In m folders → fits (fs st) player23Folder (meetingFolder m) = true) →
  ∃ st', create_app w true cwd st = (Ret tt, st')
    ∧ (∀ m, In m folders → has_player23 w (fs st') m = true)
    ∧ (∀ p, (∀ m rest, In m folders → p ≠ meetingFolder m +:+ "/" +:+ rest) →
            fs st' !! p = fs st !! p)
    ∧ ∃ links, fst (hello w message st') = Ret (links, message)
        ∧ ∀ m, In m folders →
               In ("/" +:+ DOWNLOADED_MEETINGS_FOLDER +:+ "/" +:+ m +:+ "/index.html", m)
                  links.
Proof.
  intros player23Folder meetingFolder Hs Hsrc H1 H2 _.
  assert (Hl : ∃ names, listdir (fs st) (downloadedMeetingsFolderPath w) = Ret names
                        ∧ folders = meetingFolders_of w (fs st) names).
  { unfold session_folders in Hs.
    destruct (listdir (fs st) (downloadedMeetingsFolderPath w)) as [names|e];
      [|discriminate].
    injection Hs as <-. eauto. }
  destruct Hl as (names & Hl & Hf).
  destruct (meetingFolders_spec w (fs st) names Hl) as [_ Hin]. rewrite <- Hf in Hin.
  assert (Hroot : isdir (fs st) (downloadedMeetingsFolderPath w) = true).
  { unfold listdir in Hl.
    destruct (isdir (fs st) (downloadedMeetingsFolderPath w)); [reflexivity|].
    destruct (isfile (fs st) (downloadedMeetingsFolderPath w)); discriminate. }
  assert (Hjoin : ∀ m, In m folders →
            meetingFolder m = downloadedMeetingsFolderPath w +:+ "/" +:+ m).
  { intros m Hm. apply join_root, has_sep_relative. now apply Hin. }
  rewrite (create_app_run w cwd st folders Hs).
  destruct (for_upgrade_all w c1 c2 folders) with (st := st) (done := @nil string)
    as (st' & Hrun & Hall & Hframe).
  - intros m Hm. apply Hin in Hm. tauto.
  - intros m [].
  - exact Hsrc.
  - rewrite append_assoc3. exact H1.
  - rewrite append_assoc3. exact H2.
  - intros m Hm. now apply Hin.
  - intros m [].
  - exists st'. split; [exact Hrun|]. split; [exact Hall|]. split.
    + intros p Hp. apply Hframe. intros m rest Hm. rewrite <- (Hjoin m Hm).
      now apply Hp.
    + assert (Hroot' : isdir (fs st') (downloadedMeetingsFolderPath w) = true).
      { unfold isdir. rewrite Hframe; [exact Hroot|].
        intros m rest _. rewrite key_split. apply append_neq. discriminate. }
      destruct (listdir (fs st') (downloadedMeetingsFolderPath w)) as [names'|e] eqn:Hl';
        [|unfold listdir in Hl'; rewrite Hroot' in Hl'; discriminate].
      destruct (meetingFolders_spec w (fs st') names' Hl') as [_ Hin'].
      exists (map (meetingLink w (fs st')) (meetingFolders_of w (fs st') names')).
      split.
      * rewrite hello_result. unfold session_folders. now rewrite Hl'.
      * intros m Hm.
        assert (Hlink : meetingLink w (fs st') m
                        = ("/" +:+ DOWNLOADED_MEETINGS_FOLDER +:+ "/" +:+ m +:+ "/index.html",
                           m)).
        { unfold meetingLink. now rewrite (Hall m Hm). }
        rewrite <- Hlink. apply in_map. apply Hin'.
        destruct (proj1 (Hin m) Hm) as (Hne & Hsep & Hd).
        split; [exact Hne|]. split; [exact Hsep|].
        unfold isdir. rewrite Hframe; [exact Hd|].
        intros m' rest _. now apply session_dir_not_below.
Qed.

Lemma X17_create_app_upgrades_example :
  let w := Example.site true in
  session_folders w old_recording = Ret ["m"]
  ∧ has_player23 w old_recording "m" = false
  ∧ fits old_recording (os_path_join (SCRIPT_DIR w) ["player23"])
      (os_path_join (downloadedMeetingsFolderPath w) ["m"]) = true
  ∧ ∃ st', create_app w true "/opt/bbb" (Example.start old_recording) = (Ret tt, st')
      ∧ has_player23 w (fs st') "m" = true
      ∧ fs st' !! "/opt/bbb/downloadedMeetings/m/metadata.xml"
        = Some (File (Bytes "<recording>")).
Proof.
  split; [vm_compute; reflexivity|]. split; [vm_compute; reflexivity|].
  split; [vm_compute; reflexivity|].
  destruct (X17_create_app_upgrades (Example.site true) "/opt/bbb" ""
              (Example.start old_recording) ["m"]
              (Bytes "<html>") (Document (JObject [])))
    as (st' & Hrun & Hall & _ & _).
  - vm_compute. reflexivity.
  - vm_compute. reflexivity.
  - vm_compute. reflexivity.
  - vm_compute. reflexivity.
  - intros m [<-|[]]. vm_compute. reflexivity.
  - exists st'. split; [exact Hrun|]. split; [apply Hall; now left|].
    assert (E : snd (create_app (Example.site true) true "/opt/bbb"
                       (Example.start old_recording)) = st') by now rewrite Hrun.
    rewrite <- E. vm_compute. reflexivity.
Defined.
